(** * co-watch-sync: signaling server and WebRTC session manager

    A shallow embedding of the two signaling servers of the repository
    (the CommonJS server and the ES-module server) and of the client-side
    [WebRTCManager] class of [src/lib/webrtc.ts], followed by the
    properties of the room registry, of the relay and of the data-channel
    protocol.

    Conventions of the embedding:
    - a JavaScript [Map] is an insertion-ordered association list
      ([JsMap]); iteration order is observable in the servers ([find] of
      the first host, [forEach] on disconnect), so it is kept;
    - every handler is a function from the state before the event to the
      state after it and the list of [emit] calls it performs, in program
      order;
    - what the environment decides (the clock, [Math.random], whether a
      promise of the browser's RTCPeerConnection rejects) is an argument;
    - [console.log] and [console.error] calls are left out. *)

From Stdlib Require Import String Ascii List Bool Arith ZArith Lia DecimalString.
Import ListNotations.
Open Scope string_scope.
Open Scope list_scope.

Set Warnings "-register-all".

(** ** JSON values

    Payloads that the server relays without looking at them (SDP offers,
    answers, ICE candidates) and the envelopes of the data channel. *)

Inductive json : Type :=
| JNull
| JBool (b : bool)
| JNum (n : Z)
| JStr (s : string)
| JArr (xs : list json)
| JObj (fields : list (string * json)).

(** ** Insertion-ordered maps with string keys (JavaScript [Map]) *)

Module JsMap.

Definition t (V : Type) : Type := list (string * V).

Section Ops.
Context {V : Type}.

Definition empty : t V := [].

Fixpoint get (k : string) (m : t V) : option V :=
  match m with
  | [] => None
  | (k', v) :: m' => if String.eqb k' k then Some v else get k m'
  end.

Definition has (k : string) (m : t V) : bool :=
  match get k m with Some _ => true | None => false end.

(** [set] keeps the position of a key that is already there and
    appends a new key at the end. *)
Fixpoint set (k : string) (v : V) (m : t V) : t V :=
  match m with
  | [] => [(k, v)]
  | (k', v') :: m' =>
      if String.eqb k' k then (k, v) :: m' else (k', v') :: set k v m'
  end.

Fixpoint delete (k : string) (m : t V) : t V :=
  match m with
  | [] => []
  | (k', v') :: m' =>
      if String.eqb k' k then delete k m' else (k', v') :: delete k m'
  end.

Definition size (m : t V) : nat := length m.

Definition keys (m : t V) : list string := map fst m.

Definition entries (m : t V) : list (string * V) := m.

End Ops.

End JsMap.

(** ** Data shared by the two servers *)

(** The value stored per socket id in [room.users]. [joinedAt] is the
    clock reading ([new Date()]) in milliseconds. *)
Record user : Type := mkUser {
  username : string;
  isHost : bool;
  joinedAt : Z
}.

(** [{ users: new Map(), peersCount: 0 }]: the count is a field of its
    own, assigned from [users.size] after each change. *)
Record roomInfo : Type := mkRoom {
  users : JsMap.t user;
  peersCount : nat
}.

(** The state of a server process: the module-level [rooms] map and, for
    every connected socket, socket.io's [socket.rooms] (the broadcast
    rooms the socket is in; on connection a socket is put in the room
    named by its own id). *)
Record server : Type := mkServer {
  rooms : JsMap.t roomInfo;
  sockets : JsMap.t (list string)
}.

Definition server_init : server := {| rooms := JsMap.empty; sockets := JsMap.empty |}.

(** Messages the server sends. *)
Inductive message : Type :=
| RoomJoined (roomId : string) (peersCount : nat) (isHost : bool)
| PeerJoined (peerId : string) (peersCount : nat) (username : string)
| ReadyToConnect
| OfferMsg (offer : json) (peerId : string)
| AnswerMsg (answer : json) (peerId : string)
| IceCandidateMsg (candidate : json) (peerId : string)
| PeerLeft (peerId : string) (peersCount : nat) (username : string).

(** The three addressing forms the servers use. *)
Inductive dest : Type :=
| ToSender                          (* socket.emit(...) *)
| ToRoomExceptSender (room : string) (* socket.to(room).emit(...) *)
| ToRoom (room : string).            (* io.to(room).emit(...) *)

Record emission : Type := mkEmit {
  em_from : string;   (* the socket whose handler runs *)
  em_dest : dest;
  em_msg : message
}.

(** What a client sends with [join-room], and what the environment
    decides while the handler runs. *)
Record joinData : Type := mkJoin {
  jd_roomId : string;
  jd_isHost : bool;
  jd_username : option string   (* None: the field is undefined *)
}.

Record joinEnv : Type := mkJoinEnv {
  env_random : nat;   (* Math.floor(Math.random() * 1000) *)
  env_now : Z         (* new Date() *)
}.

Inductive event : Type :=
| Connection (s : string)
| JoinRoom (s : string) (data : joinData) (env : joinEnv)
| Offer (s : string) (roomId : string) (offer : json)
| Answer (s : string) (roomId : string) (answer : json)
| IceCandidate (s : string) (roomId : string) (candidate : json)
| LeaveRoom (s : string) (roomId : string)
| Disconnect (s : string).

(** *** socket.io room membership *)

Definition socket_rooms (s : string) (sk : JsMap.t (list string)) : list string :=
  match JsMap.get s sk with Some rs => rs | None => [] end.

Definition mem (r : string) (rs : list string) : bool :=
  existsb (String.eqb r) rs.

(** [socket.join(room)] *)
Definition socket_join (s room : string) (sk : JsMap.t (list string)) : JsMap.t (list string) :=
  let rs := socket_rooms s sk in
  JsMap.set s (if mem room rs then rs else rs ++ [room]) sk.

(** [socket.leave(room)] *)
Definition socket_leave (s room : string) (sk : JsMap.t (list string)) : JsMap.t (list string) :=
  JsMap.set s (filter (fun r => negb (String.eqb r room)) (socket_rooms s sk)) sk.

(** The sockets an [emit] reaches, given the membership at that moment. *)
Definition recipients (sk : JsMap.t (list string)) (e : emission) : list string :=
  match em_dest e with
  | ToSender => [em_from e]
  | ToRoomExceptSender room =>
      filter (fun s => negb (String.eqb s (em_from e)))
             (JsMap.keys (filter (fun kv => mem room (snd kv)) sk))
  | ToRoom room => JsMap.keys (filter (fun kv => mem room (snd kv)) sk)
  end.

(** *** Small JavaScript idioms *)

(** [`User${n}`] *)
Definition default_username (n : nat) : string :=
  "User" ++ NilEmpty.string_of_uint (Nat.to_uint n).

(** [username || `User${...}`]: undefined and the empty string are falsy. *)
Definition username_or_default (u : option string) (n : nat) : string :=
  match u with
  | Some EmptyString => default_username n
  | Some name => name
  | None => default_username n
  end.

(** [Array.from(users.entries()).find(([_, user]) => user.isHost)?.[0]] *)
Definition find_host (us : JsMap.t user) : option string :=
  option_map fst (find (fun kv => isHost (snd kv)) (JsMap.entries us)).

(** [if (hostSocket)]: undefined and the empty string are falsy. *)
Definition truthy (h : option string) : bool :=
  match h with
  | Some EmptyString => false
  | Some _ => true
  | None => false
  end.

(** The body of the answer of [GET /health]. *)
Record healthReport : Type := mkHealth {
  h_status : string;
  h_timestamp : string;
  activeRooms : nat;
  totalUsers : nat
}.

(** ** The CommonJS server *)

Module Cjs.

(** [getRoomInfo]: creates the room when it is absent. *)
Definition getRoomInfo (roomId : string) (rs : JsMap.t roomInfo) : JsMap.t roomInfo * roomInfo :=
  let rs1 :=
    if negb (JsMap.has roomId rs)
    then JsMap.set roomId {| users := JsMap.empty; peersCount := 0 |} rs
    else rs in
  (rs1, match JsMap.get roomId rs1 with
        | Some room => room
        | None => {| users := JsMap.empty; peersCount := 0 |}
        end).

Definition on_join_room (s : string) (data : joinData) (env : joinEnv) (st : server)
  : server * list emission :=
  let roomId := jd_roomId data in
  (* Leave any existing rooms *)
  let sk1 :=
    fold_left (fun sk room => if negb (String.eqb room s) then socket_leave s room sk else sk)
              (socket_rooms s (sockets st)) (sockets st) in
  (* Join the new room *)
  let sk2 := socket_join s roomId sk1 in
  let '(rs1, room) := getRoomInfo roomId (rooms st) in
  let users1 :=
    JsMap.set s {| username := username_or_default (jd_username data) (env_random env);
                   isHost := jd_isHost data;
                   joinedAt := env_now env |} (users room) in
  let room1 := {| users := users1; peersCount := JsMap.size users1 |} in
  let rs2 := JsMap.set roomId room1 rs1 in
  let joined_name :=
    match JsMap.get s users1 with Some u => username u | None => EmptyString end in
  let out :=
    [ mkEmit s ToSender (RoomJoined roomId (peersCount room1) (jd_isHost data));
      mkEmit s (ToRoomExceptSender roomId) (PeerJoined s (peersCount room1) joined_name) ] in
  (* If there are 2 users, initiate WebRTC connection *)
  let out1 :=
    if Nat.eqb (peersCount room1) 2 then
      let hostSocket := find_host (users room1) in
      if truthy hostSocket then
        match hostSocket with
        | Some h => out ++ [mkEmit s (ToRoom h) ReadyToConnect]
        | None => out
        end
      else out
    else out in
  ({| rooms := rs2; sockets := sk2 |}, out1).

Definition on_offer (s roomId : string) (offer : json) (st : server) : server * list emission :=
  (st, [mkEmit s (ToRoomExceptSender roomId) (OfferMsg offer s)]).

Definition on_answer (s roomId : string) (answer : json) (st : server) : server * list emission :=
  (st, [mkEmit s (ToRoomExceptSender roomId) (AnswerMsg answer s)]).

Definition on_ice_candidate (s roomId : string) (candidate : json) (st : server)
  : server * list emission :=
  (st, [mkEmit s (ToRoomExceptSender roomId) (IceCandidateMsg candidate s)]).

(** One call of the callback of [rooms.forEach] in the disconnect
    handler; the callback works on the module-level [rooms]. *)
Definition disconnect_visit (s : string) (acc : JsMap.t roomInfo * list emission)
           (entry : string * roomInfo) : JsMap.t roomInfo * list emission :=
  let '(rs, out) := acc in
  let '(roomId, room) := entry in
  if JsMap.has s (users room) then
    let name := match JsMap.get s (users room) with Some u => username u | None => EmptyString end in
    let users1 := JsMap.delete s (users room) in
    let room1 := {| users := users1; peersCount := JsMap.size users1 |} in
    let rs1 := JsMap.set roomId room1 rs in
    let out1 := out ++ [mkEmit s (ToRoomExceptSender roomId) (PeerLeft s (peersCount room1) name)] in
    (* Clean up empty rooms *)
    if Nat.eqb (peersCount room1) 0 then (JsMap.delete roomId rs1, out1) else (rs1, out1)
  else (rs, out).

Definition on_disconnect (s : string) (st : server) : server * list emission :=
  let '(rs, out) :=
    fold_left (disconnect_visit s) (JsMap.entries (rooms st)) (rooms st, []) in
  ({| rooms := rs; sockets := sockets st |}, out).

Definition on_leave_room (s roomId : string) (st : server) : server * list emission :=
  let sk1 := socket_leave s roomId (sockets st) in
  let '(rs1, room) := getRoomInfo roomId (rooms st) in
  if JsMap.has s (users room) then
    let name := match JsMap.get s (users room) with Some u => username u | None => EmptyString end in
    let users1 := JsMap.delete s (users room) in
    let room1 := {| users := users1; peersCount := JsMap.size users1 |} in
    let rs2 := JsMap.set roomId room1 rs1 in
    ({| rooms := rs2; sockets := sk1 |},
     [mkEmit s (ToRoomExceptSender roomId) (PeerLeft s (peersCount room1) name)])
  else ({| rooms := rs1; sockets := sk1 |}, []).

(** socket.io puts a new socket in the room of its own id, and takes a
    socket out of all its rooms before the [disconnect] handler runs. *)
Definition step (st : server) (e : event) : server * list emission :=
  match e with
  | Connection s =>
      ({| rooms := rooms st; sockets := JsMap.set s [s] (sockets st) |}, [])
  | JoinRoom s data env => on_join_room s data env st
  | Offer s roomId offer => on_offer s roomId offer st
  | Answer s roomId answer => on_answer s roomId answer st
  | IceCandidate s roomId candidate => on_ice_candidate s roomId candidate st
  | LeaveRoom s roomId => on_leave_room s roomId st
  | Disconnect s =>
      on_disconnect s {| rooms := rooms st; sockets := JsMap.delete s (sockets st) |}
  end.

Fixpoint run (st : server) (es : list event) : server * list emission :=
  match es with
  | [] => (st, [])
  | e :: es' =>
      let '(st1, out1) := step st e in
      let '(st2, out2) := run st1 es' in
      (st2, out1 ++ out2)
  end.

(** [app.get('/health', ...)]; [nowISO] is [new Date().toISOString()]. *)
Definition health (nowISO : string) (st : server) : healthReport :=
  {| h_status := "ok";
     h_timestamp := nowISO;
     activeRooms := JsMap.size (rooms st);
     totalUsers := fold_left (fun sum kv => sum + peersCount (snd kv)) (rooms st) 0 |}.

End Cjs.

(** ** The ES-module server *)

Module Esm.

(** [getRoom]: a plain lookup. *)
Definition getRoom (roomId : string) (rs : JsMap.t roomInfo) : option roomInfo :=
  JsMap.get roomId rs.

(** [getOrCreateRoom] *)
Definition getOrCreateRoom (roomId : string) (rs : JsMap.t roomInfo) : JsMap.t roomInfo * roomInfo :=
  let rs1 :=
    if negb (JsMap.has roomId rs)
    then JsMap.set roomId {| users := JsMap.empty; peersCount := 0 |} rs
    else rs in
  (rs1, match JsMap.get roomId rs1 with
        | Some room => room
        | None => {| users := JsMap.empty; peersCount := 0 |}
        end).

Definition on_join_room (s : string) (data : joinData) (env : joinEnv) (st : server)
  : server * list emission :=
  let roomId := jd_roomId data in
  (* Leave all previous rooms except own socket room *)
  let sk1 :=
    fold_left (fun sk room => if negb (String.eqb room s) then socket_leave s room sk else sk)
              (socket_rooms s (sockets st)) (sockets st) in
  (* Join new room *)
  let sk2 := socket_join s roomId sk1 in
  let '(rs1, room) := getOrCreateRoom roomId (rooms st) in
  let users1 :=
    JsMap.set s {| username := username_or_default (jd_username data) (env_random env);
                   isHost := jd_isHost data;
                   joinedAt := env_now env |} (users room) in
  let room1 := {| users := users1; peersCount := JsMap.size users1 |} in
  let rs2 := JsMap.set roomId room1 rs1 in
  let joined_name :=
    match JsMap.get s users1 with Some u => username u | None => EmptyString end in
  let out :=
    [ mkEmit s ToSender (RoomJoined roomId (peersCount room1) (jd_isHost data));
      mkEmit s (ToRoomExceptSender roomId) (PeerJoined s (peersCount room1) joined_name) ] in
  (* If 2 users, start WebRTC *)
  let out1 :=
    if Nat.eqb (peersCount room1) 2 then
      let hostSocket := find_host (users room1) in
      if truthy hostSocket then
        match hostSocket with
        | Some h => out ++ [mkEmit s (ToRoom h) ReadyToConnect]
        | None => out
        end
      else out
    else out in
  ({| rooms := rs2; sockets := sk2 |}, out1).

Definition on_offer (s roomId : string) (offer : json) (st : server) : server * list emission :=
  (st, [mkEmit s (ToRoomExceptSender roomId) (OfferMsg offer s)]).

Definition on_answer (s roomId : string) (answer : json) (st : server) : server * list emission :=
  (st, [mkEmit s (ToRoomExceptSender roomId) (AnswerMsg answer s)]).

Definition on_ice_candidate (s roomId : string) (candidate : json) (st : server)
  : server * list emission :=
  (st, [mkEmit s (ToRoomExceptSender roomId) (IceCandidateMsg candidate s)]).

Definition on_leave_room (s roomId : string) (st : server) : server * list emission :=
  match getRoom roomId (rooms st) with
  | None => (st, [])                                   (* if (!room) return; *)
  | Some room =>
      let sk1 := socket_leave s roomId (sockets st) in
      if JsMap.has s (users room) then
        let name := match JsMap.get s (users room) with Some u => username u | None => EmptyString end in
        let users1 := JsMap.delete s (users room) in
        let room1 := {| users := users1; peersCount := JsMap.size users1 |} in
        let rs1 := JsMap.set roomId room1 (rooms st) in
        let out := [mkEmit s (ToRoomExceptSender roomId) (PeerLeft s (peersCount room1) name)] in
        if Nat.eqb (peersCount room1) 0
        then ({| rooms := JsMap.delete roomId rs1; sockets := sk1 |}, out)
        else ({| rooms := rs1; sockets := sk1 |}, out)
      else ({| rooms := rooms st; sockets := sk1 |}, [])
  end.

Definition disconnect_visit (s : string) (acc : JsMap.t roomInfo * list emission)
           (entry : string * roomInfo) : JsMap.t roomInfo * list emission :=
  let '(rs, out) := acc in
  let '(roomId, room) := entry in
  if JsMap.has s (users room) then
    let name := match JsMap.get s (users room) with Some u => username u | None => EmptyString end in
    let users1 := JsMap.delete s (users room) in
    let room1 := {| users := users1; peersCount := JsMap.size users1 |} in
    let rs1 := JsMap.set roomId room1 rs in
    let out1 := out ++ [mkEmit s (ToRoomExceptSender roomId) (PeerLeft s (peersCount room1) name)] in
    if Nat.eqb (peersCount room1) 0 then (JsMap.delete roomId rs1, out1) else (rs1, out1)
  else (rs, out).

Definition on_disconnect (s : string) (st : server) : server * list emission :=
  let '(rs, out) :=
    fold_left (disconnect_visit s) (JsMap.entries (rooms st)) (rooms st, []) in
  ({| rooms := rs; sockets := sockets st |}, out).

Definition step (st : server) (e : event) : server * list emission :=
  match e with
  | Connection s =>
      ({| rooms := rooms st; sockets := JsMap.set s [s] (sockets st) |}, [])
  | JoinRoom s data env => on_join_room s data env st
  | Offer s roomId offer => on_offer s roomId offer st
  | Answer s roomId answer => on_answer s roomId answer st
  | IceCandidate s roomId candidate => on_ice_candidate s roomId candidate st
  | LeaveRoom s roomId => on_leave_room s roomId st
  | Disconnect s =>
      on_disconnect s {| rooms := rooms st; sockets := JsMap.delete s (sockets st) |}
  end.

Fixpoint run (st : server) (es : list event) : server * list emission :=
  match es with
  | [] => (st, [])
  | e :: es' =>
      let '(st1, out1) := step st e in
      let '(st2, out2) := run st1 es' in
      (st2, out1 ++ out2)
  end.

(** [app.get("/health", ...)]; [nowISO] is [new Date().toISOString()]. *)
Definition health (nowISO : string) (st : server) : healthReport :=
  {| h_status := "ok";
     h_timestamp := nowISO;
     activeRooms := JsMap.size (rooms st);
     totalUsers := fold_left (fun sum kv => sum + peersCount (snd kv)) (rooms st) 0 |}.

End Esm.

(** ** The client: [WebRTCManager] of [src/lib/webrtc.ts] *)

Module Client.

(** [JSON.stringify] and [JSON.parse] are the platform's; the text on
    the data channel is kept abstract. [JSON_parse] gives [None] where
    [JSON.parse] throws. *)
Class JsonCodec (wire : Type) : Type := {
  JSON_stringify : json -> wire;
  JSON_parse : wire -> option json
}.

(** [RTCDataChannel.readyState] *)
Inductive readyState : Type := RsConnecting | RsOpen | RsClosing | RsClosed.

(** [RTCPeerConnection.connectionState] *)
Inductive pcState : Type :=
| PcNew | PcConnecting | PcConnected | PcDisconnected | PcFailed | PcClosed.

(** The first argument of [onConnectionChange]. *)
Inductive status : Type := Disconnected | Connecting | Connected.

(** [new Date(v)], kept as the value it was built from
    ([None]: undefined). *)
Inductive jsdate : Type := NewDate (v : option json).

(** The private fields of the class. [socket], [peerConnection] and
    [callbacks] are null or an object; of the data channel the
    [readyState] is kept. *)
Record manager : Type := mkManager {
  socket : bool;
  peerConnection : bool;
  dataChannel : option readyState;
  roomId : string;
  isHost : bool;
  callbacks : bool;
  username : string;
  peersCount : Z
}.

(** What the browser answers while a handler runs: whether each promise
    of the peer connection resolves, and whether [dataChannel.send]
    throws. *)
Record rtcEnv : Type := mkRtcEnv {
  setRemote_ok : bool;
  createAnswer_res : option json;
  createOffer_res : option json;
  setLocal_ok : bool;
  addIce_ok : bool;
  send_ok : bool
}.

Section Manager.
Context {wire : Type} {codec : JsonCodec wire}.

(** The calls a method or handler makes on the objects it holds, in
    program order. *)
Inductive action : Type :=
| IoConnect (url : string)
| SocketEmit (ev : string) (payload : json)
| SocketDisconnect
| NewPeerConnection
| CreateDataChannel (label : string)
| PcCreateOffer
| PcCreateAnswer
| PcSetLocalDescription (d : option json)
| PcSetRemoteDescription (d : json)
| PcAddIceCandidate (c : json)
| PcClose
| DcSend (w : wire)
| DcCloseCall
| OnConnectionChange (st : status) (peers : Z)
| OnMessage (text sender : option json) (timestamp : jsdate)
| OnPlayerSync (data : option json).

Record outcome : Type := mkOutcome {
  post : manager;
  trace : list action;
  raised : bool      (* an exception leaves the method *)
}.

Definition done (m : manager) (acts : list action) : outcome :=
  {| post := m; trace := acts; raised := false |}.

(** [this.callbacks?.f(...)] *)
Definition cb (m : manager) (a : action) : list action :=
  if callbacks m then [a] else [].

(** [new WebRTCManager(roomId, isHost)]; [rnd] is
    [Math.floor(Math.random() * 1000)]. *)
Definition constructor (room : string) (host : bool) (rnd : nat) : manager :=
  {| socket := false; peerConnection := false; dataChannel := None;
     roomId := room; isHost := host; callbacks := false;
     username := default_username rnd; peersCount := 0 |}.

(** [initialize(callbacks)]; [io(...)] and [new RTCPeerConnection]
    are taken to succeed. *)
Definition initialize (m : manager) : outcome :=
  let m1 :=
    {| socket := true; peerConnection := true;
       dataChannel := if isHost m then Some RsConnecting else dataChannel m;
       roomId := roomId m; isHost := isHost m; callbacks := true;
       username := username m; peersCount := peersCount m |} in
  done m1
    ([IoConnect "http://localhost:3001"; NewPeerConnection]
     ++ (if isHost m then [CreateDataChannel "chat"] else [])
     ++ [SocketEmit "join-room"
           (JObj [("roomId", JStr (roomId m));
                  ("isHost", JBool (isHost m));
                  ("username", JStr (username m))])]).

Definition set_peersCount (m : manager) (n : Z) : manager :=
  {| socket := socket m; peerConnection := peerConnection m;
     dataChannel := dataChannel m; roomId := roomId m; isHost := isHost m;
     callbacks := callbacks m; username := username m; peersCount := n |}.

Definition set_dataChannel (m : manager) (dc : option readyState) : manager :=
  {| socket := socket m; peerConnection := peerConnection m;
     dataChannel := dc; roomId := roomId m; isHost := isHost m;
     callbacks := callbacks m; username := username m; peersCount := peersCount m |}.

(** *** Handlers of [setupDataChannel] *)

Definition dc_onopen (m : manager) : outcome :=
  done m (cb m (OnConnectionChange Connected (peersCount m))).

Definition dc_onclose (m : manager) : outcome :=
  done m (cb m (OnConnectionChange Disconnected 0)).

(** [message.k]: reading a property of null throws; of a number,
    boolean, string or array, none of the names read here exists. *)
Definition prop (v : json) (k : string) : option (option json) :=
  match v with
  | JNull => None
  | JObj fields => Some (JsMap.get k fields)
  | _ => Some None
  end.

(** [x === 'lit'] *)
Definition is_str (x : option json) (lit : string) : bool :=
  match x with
  | Some (JStr s) => String.eqb s lit
  | _ => false
  end.

Definition field (v : json) (k : string) : option json :=
  match prop v k with Some x => x | None => None end.

Definition dc_onmessage (data : wire) (m : manager) : outcome :=
  match JSON_parse data with
  | None => done m []                       (* caught *)
  | Some message =>
      match prop message "type" with
      | None => done m []                   (* caught *)
      | Some ty =>
          if is_str ty "chat" then
            done m (cb m (OnMessage (field message "text")
                                    (field message "sender")
                                    (NewDate (field message "timestamp"))))
          else if is_str ty "player-sync" then
            done m (cb m (OnPlayerSync (field message "data")))
          else done m []
      end
  end.

(** *** Handlers of [setupSignalingHandlers] *)

Definition on_room_joined (n : Z) (m : manager) : outcome :=
  done (set_peersCount m (n - 1)) [].

Definition on_peer_joined (n : Z) (m : manager) : outcome :=
  let m1 := set_peersCount m (n - 1) in
  done m1 (cb m1 (OnConnectionChange Connecting (peersCount m1))).

Definition on_peer_left (n : Z) (m : manager) : outcome :=
  let m1 := set_peersCount m (Z.max 0 (n - 1)) in
  done m1 (cb m1 (OnConnectionChange
                    (if Z.ltb 0 (peersCount m1) then Connected else Disconnected)
                    (peersCount m1))).

(** [this.socket?.emit(ev, payload)] *)
Definition emit (m : manager) (ev : string) (payload : json) : list action :=
  if socket m then [SocketEmit ev payload] else [].

Definition on_offer (offer : json) (env : rtcEnv) (m : manager) : outcome :=
  if peerConnection m then
    done m
      (PcSetRemoteDescription offer ::
       if setRemote_ok env then
         PcCreateAnswer ::
         match createAnswer_res env with
         | Some answer =>
             PcSetLocalDescription (Some answer) ::
             if setLocal_ok env
             then emit m "answer" (JObj [("roomId", JStr (roomId m)); ("answer", answer)])
             else []
         | None => []
         end
       else [])
  else
    (* every [this.peerConnection?.] call is skipped; [answer] is undefined *)
    done m (emit m "answer" (JObj [("roomId", JStr (roomId m))])).

Definition on_answer (answer : json) (env : rtcEnv) (m : manager) : outcome :=
  done m (if peerConnection m then [PcSetRemoteDescription answer] else []).

Definition on_ice_candidate (candidate : json) (env : rtcEnv) (m : manager) : outcome :=
  done m (if peerConnection m then [PcAddIceCandidate candidate] else []).

Definition on_ready_to_connect (env : rtcEnv) (m : manager) : outcome :=
  if isHost m && peerConnection m then
    done m
      (PcCreateOffer ::
       match createOffer_res env with
       | Some offer =>
           PcSetLocalDescription (Some offer) ::
           if setLocal_ok env
           then emit m "offer" (JObj [("roomId", JStr (roomId m)); ("offer", offer)])
           else []
       | None => []
       end)
  else done m [].

(** *** Handlers installed by [initialize] *)

Definition on_connect (m : manager) : outcome :=
  done m (cb m (OnConnectionChange Connecting 0)).

Definition on_disconnect (m : manager) : outcome :=
  done m (cb m (OnConnectionChange Disconnected 0)).

Definition pc_onicecandidate (candidate : option json) (m : manager) : outcome :=
  match candidate with
  | Some c => done m (emit m "ice-candidate"
                        (JObj [("roomId", JStr (roomId m)); ("candidate", c)]))
  | None => done m []
  end.

Definition pc_onconnectionstatechange (state : pcState) (m : manager) : outcome :=
  match state with
  | PcConnected => done m (cb m (OnConnectionChange Connected (peersCount m)))
  | PcDisconnected | PcFailed => done m (cb m (OnConnectionChange Disconnected 0))
  | _ => done m []
  end.

(** [ondatachannel], installed on the non-host side only. *)
Definition pc_ondatachannel (rs : readyState) (m : manager) : outcome :=
  done (set_dataChannel m (Some rs)) [].

(** *** Public methods *)

Definition chat_envelope (text sender timestamp : string) : json :=
  JObj [("type", JStr "chat");
        ("text", JStr text);
        ("sender", JStr sender);
        ("timestamp", JStr timestamp)].

(** [{ action, ...data }]; [data] is undefined or a plain object. The
    properties are kept in insertion order; the place JavaScript gives to
    integer-like keys is not modelled. *)
Definition spread_action (act : string) (data : option (list (string * json)))
  : list (string * json) :=
  fold_left (fun o kv => JsMap.set (fst kv) (snd kv) o)
            (match data with Some fs => fs | None => [] end)
            [("action", JStr act)].

Definition sync_envelope (act : string) (data : option (list (string * json))) : json :=
  JObj [("type", JStr "player-sync");
        ("data", JObj (spread_action act data))].

Definition channel_open (m : manager) : bool :=
  match dataChannel m with
  | Some RsOpen => true
  | _ => false
  end.

(** [sendMessage(text)]; [nowISO] is [new Date().toISOString()]. *)
Definition sendMessage (text nowISO : string) (env : rtcEnv) (m : manager) : outcome :=
  if channel_open m then
    {| post := m;
       trace := [DcSend (JSON_stringify (chat_envelope text (username m) nowISO))];
       raised := negb (send_ok env) |}
  else done m [].

Definition syncPlayer (act : string) (data : option (list (string * json)))
           (env : rtcEnv) (m : manager) : outcome :=
  if channel_open m then
    {| post := m;
       trace := [DcSend (JSON_stringify (sync_envelope act data))];
       raised := negb (send_ok env) |}
  else done m [].

(** [disconnect()]; [close()] moves a channel that is not closed to
    the closing state. *)
Definition disconnect (m : manager) : outcome :=
  let m1 :=
    match dataChannel m with
    | Some RsClosed => m
    | Some _ => set_dataChannel m (Some RsClosing)
    | None => m
    end in
  done m1
    ((match dataChannel m with Some _ => [DcCloseCall] | None => [] end)
     ++ (if peerConnection m then [PcClose] else [])
     ++ (if socket m then [SocketDisconnect] else [])
     ++ cb m (OnConnectionChange Disconnected 0)).

(** *** Everything that can run code of the class *)

Inductive cevent : Type :=
| CallInitialize
| CallSendMessage (text nowISO : string)
| CallSyncPlayer (act : string) (data : option (list (string * json)))
| CallDisconnect
| SockConnect
| SockDisconnect
| SockRoomJoined (n : Z)
| SockPeerJoined (n : Z)
| SockPeerLeft (n : Z)
| SockOffer (offer : json)
| SockAnswer (answer : json)
| SockIceCandidate (candidate : json)
| SockReadyToConnect
| PcIceCandidate (candidate : option json)
| PcConnectionStateChange (state : pcState)
| PcDataChannel (rs : readyState)
| DcOpen
| DcClose
| DcMessage (data : wire).

(** A handler runs only where [initialize] or [setupDataChannel] has
    installed it: on the socket, on the peer connection, on the data
    channel. The browser has moved the channel to its new
    [readyState] when [onopen] or [onclose] runs. *)
Definition step (env : rtcEnv) (m : manager) (e : cevent) : outcome :=
  match e with
  | CallInitialize => initialize m
  | CallSendMessage text nowISO => sendMessage text nowISO env m
  | CallSyncPlayer act data => syncPlayer act data env m
  | CallDisconnect => disconnect m
  | SockConnect => if socket m then on_connect m else done m []
  | SockDisconnect => if socket m then on_disconnect m else done m []
  | SockRoomJoined n => if socket m then on_room_joined n m else done m []
  | SockPeerJoined n => if socket m then on_peer_joined n m else done m []
  | SockPeerLeft n => if socket m then on_peer_left n m else done m []
  | SockOffer offer => if socket m then on_offer offer env m else done m []
  | SockAnswer answer => if socket m then on_answer answer env m else done m []
  | SockIceCandidate c => if socket m then on_ice_candidate c env m else done m []
  | SockReadyToConnect => if socket m then on_ready_to_connect env m else done m []
  | PcIceCandidate c => if peerConnection m then pc_onicecandidate c m else done m []
  | PcConnectionStateChange state =>
      if peerConnection m then pc_onconnectionstatechange state m else done m []
  | PcDataChannel rs =>
      if peerConnection m && negb (isHost m) then pc_ondatachannel rs m else done m []
  | DcOpen =>
      match dataChannel m with
      | Some _ => dc_onopen (set_dataChannel m (Some RsOpen))
      | None => done m []
      end
  | DcClose =>
      match dataChannel m with
      | Some _ => dc_onclose (set_dataChannel m (Some RsClosed))
      | None => done m []
      end
  | DcMessage data =>
      match dataChannel m with
      | Some _ => dc_onmessage data m
      | None => done m []
      end
  end.

(** An offer is created ([createOffer]) or sent ([emit('offer')]). *)
Definition offer_action (a : action) : bool :=
  match a with
  | PcCreateOffer => true
  | SocketEmit ev _ => String.eqb ev "offer"
  | _ => false
  end.

(** A sequence of events, each with the browser's answers during it. *)
Fixpoint run (m : manager) (es : list (rtcEnv * cevent)) : manager * list action :=
  match es with
  | [] => (m, [])
  | (env, e) :: es' =>
      let o := step env m e in
      let '(m1, t) := run (post o) es' in
      (m1, trace o ++ t)
  end.

End Manager.

Arguments action : clear implicits.
Arguments outcome : clear implicits.
Arguments cevent : clear implicits.

End Client.

(** ** The player component: [src/components/YouTubePlayer.tsx] *)

Module YouTubePlayer.

(** The character class [[a-zA-Z0-9_-]]. *)
Definition id_char (c : ascii) : bool :=
  let n := nat_of_ascii c in
  (Nat.leb 97 n && Nat.leb n 122) || (Nat.leb 65 n && Nat.leb n 90)
  || (Nat.leb 48 n && Nat.leb n 57) || Nat.eqb n 95 || Nat.eqb n 45.

(** [p] matches at the start of [s]: what follows it. *)
Fixpoint starts_with (p s : string) : option string :=
  match p with
  | EmptyString => Some s
  | String a p' =>
      match s with
      | EmptyString => None
      | String b s' => if Ascii.eqb a b then starts_with p' s' else None
      end
  end.

(** [([a-zA-Z0-9_-]{n})] at the start of [s]: the captured group. *)
Fixpoint take_id (n : nat) (s : string) : option string :=
  match n with
  | 0 => Some EmptyString
  | S n' =>
      match s with
      | EmptyString => None
      | String c s' =>
          if id_char c then option_map (String c) (take_id n' s') else None
      end
  end.

(** The alternatives of the non-capturing group, in the order of the
    regular expression. *)
Definition prefixes : list string :=
  ["youtube.com/watch?v="; "youtu.be/"; "youtube.com/embed/"].

(** The whole expression at one position: the alternatives are tried in
    order, each followed by the group of eleven characters. *)
Fixpoint match_at (ps : list string) (s : string) : option string :=
  match ps with
  | [] => None
  | p :: ps' =>
      match starts_with p s with
      | Some rest =>
          match take_id 11 rest with
          | Some v => Some v
          | None => match_at ps' s
          end
      | None => match_at ps' s
      end
  end.

(** [url.match(regex)]: the leftmost position at which the expression
    matches; [match ? match[1] : null]. *)
Fixpoint extractVideoId (url : string) : option string :=
  match match_at prefixes url with
  | Some v => Some v
  | None =>
      match url with
      | EmptyString => None
      | String _ rest => extractVideoId rest
      end
  end.

(** The calls made on the player of the IFrame API. *)
Inductive playerCall : Type :=
| SeekTo (seconds : option json) (allowSeekAhead : bool)
| PlayVideo
| PauseVideo
| LoadVideoById (videoId : option json) (startSeconds : json).

Record syncResult : Type := mkSync {
  calls : list playerCall;
  threw : bool            (* a TypeError leaves the listener *)
}.

(** JavaScript truthiness of a JSON value ([None]: undefined). *)
Definition truthy_value (v : option json) : bool :=
  match v with
  | None => false
  | Some JNull => false
  | Some (JBool b) => b
  | Some (JNum n) => negb (Z.eqb n 0)
  | Some (JStr EmptyString) => false
  | Some _ => true
  end.

(** [data.k] where [data] may be undefined: reading a property of
    undefined or null throws. *)
Definition read (data : option json) (k : string) : option (option json) :=
  match data with
  | None => None
  | Some v => Client.prop v k
  end.

(** The listener of the [youtube-sync] event; [detail] is [event.detail]
    and [player] tells whether [playerRef.current] is set. *)
Definition handleSync (detail : option json) (player : bool) : syncResult :=
  match read detail "action", read detail "data" with
  | Some action, Some data =>
      if negb player then {| calls := []; threw := false |}
      else if Client.is_str action "play" then
        match read data "currentTime" with
        | Some t =>
            {| calls := (if truthy_value t then [SeekTo t true] else []) ++ [PlayVideo];
               threw := false |}
        | None => {| calls := []; threw := true |}
        end
      else if Client.is_str action "pause" then
        match read data "currentTime" with
        | Some t =>
            {| calls := (if truthy_value t then [SeekTo t true] else []) ++ [PauseVideo];
               threw := false |}
        | None => {| calls := []; threw := true |}
        end
      else if Client.is_str action "seek" then
        match read data "currentTime" with
        | Some t => {| calls := [SeekTo t true]; threw := false |}
        | None => {| calls := []; threw := true |}
        end
      else if Client.is_str action "loadVideo" then
        match read data "videoId", read data "currentTime" with
        | Some v, Some t =>
            {| calls :=
                 if truthy_value v
                 then [LoadVideoById v (match t with
                                        | Some x => if truthy_value t then x else JNum 0
                                        | None => JNum 0
                                        end)]
                 else [];
               threw := false |}
        | _, _ => {| calls := []; threw := true |}
        end
      else {| calls := []; threw := false |}
  | _, _ => {| calls := []; threw := true |}   (* destructuring of undefined or null *)
  end.

(** [YT.PlayerState] *)
Inductive playerState : Type :=
| Unstarted | Ended | Playing | Paused | Buffering | Cued.

(** [onStateChange]: the call of [onPlayerEvent] it makes, if any;
    [currentTime] is [event.target.getCurrentTime()]. *)
Definition onStateChange (state : playerState) (currentTime : Z) (videoId : string)
  : option (string * list (string * json)) :=
  match state with
  | Playing => Some ("play", [("currentTime", JNum currentTime); ("videoId", JStr videoId)])
  | Paused => Some ("pause", [("currentTime", JNum currentTime); ("videoId", JStr videoId)])
  | _ => None
  end.

End YouTubePlayer.

(** ** The chat panel and the page that hosts it *)

Module ChatPanel.

Section Panel.

(** [String.prototype.trim] is the platform's. *)
Variable trim : string -> string.

(** The state and props the handlers read. *)
Record panel : Type := mkPanel {
  newMessage : string;
  isConnected : bool
}.

Inductive panelAction : Type :=
| OnSendMessage (text : string)   (* the prop of the same name *)
| FocusInput                      (* inputRef.current?.focus() *)
| PreventDefault.                 (* e.preventDefault() *)

Definition nonblank (s : string) : bool :=
  negb (String.eqb (trim s) EmptyString).

Definition handleSend (p : panel) : panel * list panelAction :=
  if nonblank (newMessage p) && isConnected p then
    ({| newMessage := EmptyString; isConnected := isConnected p |},
     [OnSendMessage (trim (newMessage p)); FocusInput])
  else (p, []).

Definition handleKeyPress (key : string) (shiftKey : bool) (p : panel)
  : panel * list panelAction :=
  if String.eqb key "Enter" && negb shiftKey then
    let '(p1, acts) := handleSend p in (p1, PreventDefault :: acts)
  else (p, []).

Definition getUserColor (sender : string) : string :=
  if String.eqb sender "You" then "text-user-1" else "text-user-2".

End Panel.

End ChatPanel.

Module WatchTogether.

(** An element of the [messages] state. [id] is [Date.now().toString()],
    [timestamp] is [new Date()] in milliseconds. *)
Record chatMessage : Type := mkMessage {
  id : string;
  text : string;
  sender : string;
  timestamp : Z
}.

(** [webrtcRef.current] and the [messages] state. *)
Record page : Type := mkPage {
  webrtcRef : option Client.manager;
  messages : list chatMessage
}.

(** The same function as in the player component, repeated in the page. *)
Definition extractVideoId (url : string) : option string :=
  YouTubePlayer.extractVideoId url.

Section Page.
Context {wire : Type} {codec : Client.JsonCodec wire}.
Variable trim : string -> string.

Record pageResult : Type := mkPageResult {
  page_after : page;
  sent : list (Client.action wire);
  page_raised : bool
}.


(** [handlePlayerEvent(event, data)] *)
Definition handlePlayerEvent (event : string) (data : option (list (string * json)))
           (env : Client.rtcEnv) (p : page) : pageResult :=
  match webrtcRef p with
  | Some m =>
      let o := Client.syncPlayer event data env m in
      {| page_after := {| webrtcRef := Some (Client.post o); messages := messages p |};
         sent := Client.trace o;
         page_raised := Client.raised o |}
  | None => {| page_after := p; sent := []; page_raised := false |}
  end.

End Page.

End WatchTogether.

(** ** Vocabulary of the properties *)

(** The registry invariant of a room: the stored count is the size of the
    participant map, and the room is not empty. *)
Definition room_ok (room : roomInfo) : Prop :=
  peersCount room = JsMap.size (users room) /\ peersCount room <> 0.

Definition rooms_ok (rs : JsMap.t roomInfo) : Prop :=
  Forall (fun kv => room_ok (snd kv)) rs.

(** The half of the invariant that only relates the count to the map. *)
Definition counts_ok (rs : JsMap.t roomInfo) : Prop :=
  Forall (fun kv => peersCount (snd kv) = JsMap.size (users (snd kv))) rs.

(** [s] is a key of the participant map of room [r]. *)
Definition in_room (s r : string) (rs : JsMap.t roomInfo) : bool :=
  match JsMap.get r rs with
  | Some room => JsMap.has s (users room)
  | None => false
  end.

Definition is_ready (e : emission) : bool :=
  match em_msg e with ReadyToConnect => true | _ => false end.

Definition is_peer_left (e : emission) : bool :=
  match em_msg e with PeerLeft _ _ _ => true | _ => false end.

(** [h] is the first participant, in iteration order, with [isHost] set. *)
Definition first_host (h : string) (us : JsMap.t user) : Prop :=
  exists pre u post,
    us = pre ++ (h, u) :: post /\ isHost u = true /\
    Forall (fun kv => isHost (snd kv) = false) pre.

(** The room that [disconnect] leaves behind for a room that held the
    socket: nothing when the socket was alone in it. *)
Definition without (s : string) (room : roomInfo) : option roomInfo :=
  let us := JsMap.delete s (users room) in
  if Nat.eqb (JsMap.size us) 0 then None
  else Some {| users := us; peersCount := JsMap.size us |}.

(** The [peer-left] broadcast for socket [s] leaving the room of an entry. *)
Definition peer_left_of (s : string) (kv : string * roomInfo) : emission :=
  mkEmit s (ToRoomExceptSender (fst kv))
    (PeerLeft s (JsMap.size (JsMap.delete s (users (snd kv))))
       (match JsMap.get s (users (snd kv)) with Some u => username u | None => EmptyString end)).

(** What one visit of the [forEach] of the disconnect handler leaves of
    the entry it visits. *)
Definition remains (s : string) (kv : string * roomInfo) : list (string * roomInfo) :=
  if JsMap.has s (users (snd kv)) then
    match without s (snd kv) with
    | Some room1 => [(fst kv, room1)]
    | None => []
    end
  else [kv].

Definition affected (s : string) (kv : string * roomInfo) : bool :=
  JsMap.has s (users (snd kv)).

(** *** Sample inputs used by the closed examples *)

Definition env0 : joinEnv := {| env_random := 7; env_now := 0 |}.

Definition alice : joinData :=
  {| jd_roomId := "abc123"; jd_isHost := true; jd_username := Some "Alice" |}.

Definition bob : joinData :=
  {| jd_roomId := "abc123"; jd_isHost := false; jd_username := Some "Bob" |}.

(** A server in which socket "a" is alone in room "abc123", as host. *)
Definition st_alice : server :=
  fst (Esm.run server_init [Connection "a"; Connection "b"; JoinRoom "a" alice env0]).

(** Socket "a" joined room "A" and then room "B". *)
Definition two_joins : list event :=
  [Connection "a";
   JoinRoom "a" {| jd_roomId := "A"; jd_isHost := true; jd_username := Some "Alice" |} env0;
   JoinRoom "a" {| jd_roomId := "B"; jd_isHost := true; jd_username := Some "Alice" |} env0].

(** Socket "a" joins room "r" and leaves it again. *)
Definition join_then_leave : list event :=
  [Connection "a";
   JoinRoom "a" {| jd_roomId := "r"; jd_isHost := true; jd_username := Some "Alice" |} env0;
   LeaveRoom "a" "r"].

(** Socket "a" joins "A", leaves it, joins "B", joins "A" again and
    disconnects. *)
Definition rejoin_then_disconnect : list event :=
  [Connection "a";
   JoinRoom "a" {| jd_roomId := "A"; jd_isHost := true; jd_username := Some "Alice" |} env0;
   LeaveRoom "a" "A";
   JoinRoom "a" {| jd_roomId := "B"; jd_isHost := true; jd_username := Some "Alice" |} env0;
   JoinRoom "a" {| jd_roomId := "A"; jd_isHost := true; jd_username := Some "Alice" |} env0;
   Disconnect "a"].

(** Socket "b" is in room "R1" with the host "a", and alone in "R2". *)
Definition st_two_rooms : server :=
  fst (Esm.run server_init
         [Connection "a"; Connection "b";
          JoinRoom "a" {| jd_roomId := "R1"; jd_isHost := true; jd_username := Some "Alice" |} env0;
          JoinRoom "b" {| jd_roomId := "R1"; jd_isHost := false; jd_username := Some "Bob" |} env0;
          JoinRoom "b" {| jd_roomId := "R2"; jd_isHost := false; jd_username := Some "Bob" |} env0]).

(** *** The data-channel envelope as the specification words it

    A discriminated union on a field named [kind]: a chat envelope with
    [text], [sender] and a timestamp at top level, or a player-sync
    envelope with [action] at top level. *)

Definition is_string (x : option json) : bool :=
  match x with Some (JStr _) => true | _ => false end.

Definition spec_chat_envelope (v : json) : bool :=
  Client.is_str (Client.field v "kind") "chat"
  && is_string (Client.field v "text")
  && is_string (Client.field v "sender")
  && is_string (Client.field v "timestamp").

Definition spec_sync_envelope (v : json) : bool :=
  Client.is_str (Client.field v "kind") "player-sync"
  && is_string (Client.field v "action").

Definition spec_envelope (v : json) : bool :=
  spec_chat_envelope v || spec_sync_envelope v.

(** The codec that identifies a JSON text with the value it denotes; it
    instantiates [JsonCodec] in the closed examples. *)
Definition structural : Client.JsonCodec json :=
  {| Client.JSON_stringify := fun v => v; Client.JSON_parse := fun w => Some w |}.

(** A browser in which every promise resolves. *)
Definition rtc_ok : Client.rtcEnv :=
  {| Client.setRemote_ok := true;
     Client.createAnswer_res := Some (JStr "sdp-answer");
     Client.createOffer_res := Some (JStr "sdp-offer");
     Client.setLocal_ok := true;
     Client.addIce_ok := true;
     Client.send_ok := true |}.

(** The host "User7" of room "abc123" after [initialize], its data
    channel open; and the guest "User9" that has received the channel. *)
Definition host_open : Client.manager :=
  Client.set_dataChannel
    (Client.post (Client.initialize (wire := json) (Client.constructor "abc123" true 7)))
    (Some Client.RsOpen).

Definition guest_open : Client.manager :=
  Client.set_dataChannel
    (Client.post (Client.initialize (wire := json) (Client.constructor "abc123" false 9)))
    (Some Client.RsOpen).

(** *** Vocabulary of the further properties *)

(** Every stored participant has a non-empty username. *)
Definition names_ok (rs : JsMap.t roomInfo) : Prop :=
  Forall (fun kv => Forall (fun ku => username (snd ku) <> EmptyString) (users (snd kv))) rs.

(** The number of entries of all participant maps together. *)
Definition total_size (rs : JsMap.t roomInfo) : nat :=
  list_sum (map (fun kv => JsMap.size (users (snd kv))) rs).

(** The participant map of a room, empty when the room is absent. *)
Definition users_of (r : string) (rs : JsMap.t roomInfo) : JsMap.t user :=
  match JsMap.get r rs with Some room => users room | None => [] end.

(** A registry entry, forgotten when the room has no participant. *)
Definition nonempty_room (o : option roomInfo) : option roomInfo :=
  match o with
  | Some room => if Nat.eqb (JsMap.size (users room)) 0 then None else Some room
  | None => None
  end.

(** Registry [e] is registry [c] without its empty rooms, looked up by
    room id. *)
Definition same_nonempty (c e : JsMap.t roomInfo) : Prop :=
  forall r, JsMap.get r e = nonempty_room (JsMap.get r c).

Definition is_disconnect (e : event) : bool :=
  match e with Disconnect _ => true | _ => false end.

Definition is_relay (e : event) : bool :=
  match e with
  | Offer _ _ _ | Answer _ _ _ | IceCandidate _ _ _ => true
  | _ => false
  end.

Definition is_relay_msg (m : message) : bool :=
  match m with
  | OfferMsg _ _ | AnswerMsg _ _ | IceCandidateMsg _ _ => true
  | _ => false
  end.

(** The emissions that are not relayed negotiation messages. *)
Definition bookkeeping (out : list emission) : list emission :=
  filter (fun em => negb (is_relay_msg (em_msg em))) out.

(** The four actions the player listener knows. *)
Definition known_action (act : string) : bool :=
  String.eqb act "play" || String.eqb act "pause"
  || String.eqb act "seek" || String.eqb act "loadVideo".

Definition all_id_chars (v : string) : Prop :=
  Forall (fun c => YouTubePlayer.id_char c = true) (list_ascii_of_string v).



(** *** Inputs on which the addressing of the servers shows *)

(** The sockets each ready-to-connect of a run reaches, by socket.io's
    membership at the end of the run. *)
Definition ready_recipients (r : server * list emission) : list (list string) :=
  map (recipients (sockets (fst r))) (filter is_ready (snd r)).

(** Every emission of a handler with the sockets it reaches. *)
Definition deliveries (r : server * list emission) : list (list string * message) :=
  map (fun e => (recipients (sockets (fst r)) e, em_msg e)) (snd r).

(** Socket "c" joins the room whose name is the id of socket "a"; then
    "a" creates room "abc123" as host and "b" joins it as guest. *)
Definition named_like_a_socket : list event :=
  [Connection "a"; Connection "b"; Connection "c";
   JoinRoom "c" {| jd_roomId := "a"; jd_isHost := false; jd_username := Some "Carol" |} env0;
   JoinRoom "a" alice env0;
   JoinRoom "b" bob env0].

(** Socket "a" sends leave-room for the room named by its own id; then
    "a" creates room "abc123" as host and "b" joins it as guest. *)
Definition own_room_left : list event :=
  [Connection "a"; Connection "b";
   LeaveRoom "a" "a";
   JoinRoom "a" alice env0;
   JoinRoom "b" bob env0].

(** After [two_joins] (socket "a" joined "A", then "B"), socket "b"
    connects. *)
Definition st_moved_on : server :=
  fst (Esm.run server_init (two_joins ++ [Connection "b"])).

Definition bob_joins_A : joinData :=
  {| jd_roomId := "A"; jd_isHost := false; jd_username := Some "Bob" |}.

(** ** Lemmas on [JsMap] *)

Module JsMapFacts.
Import JsMap.

Section Facts.
Context {V : Type}.
Implicit Types (m : JsMap.t V) (k : string) (v : V).

Lemma get_set_eq k v m : get k (set k v m) = Some v.
Proof.
  induction m as [|[k' v'] m IH]; simpl.
  - now rewrite String.eqb_refl.
  - destruct (String.eqb k' k) eqn:E; simpl.
    + now rewrite String.eqb_refl.
    + now rewrite E.
Qed.

Lemma get_set_ne k k' v m : k <> k' -> get k' (set k v m) = get k' m.
Proof.
  intros Hne. induction m as [|[k0 v0] m IH]; simpl.
  - destruct (String.eqb k k') eqn:E; [apply String.eqb_eq in E; contradiction | reflexivity].
  - destruct (String.eqb k0 k) eqn:E; simpl.
    + apply String.eqb_eq in E; subst k0.
      destruct (String.eqb k k') eqn:E'; [apply String.eqb_eq in E'; contradiction | reflexivity].
    + destruct (String.eqb k0 k'); [reflexivity | exact IH].
Qed.

Lemma get_delete_eq k m : get k (delete k m) = None.
Proof.
  induction m as [|[k' v'] m IH]; simpl; [reflexivity|].
  destruct (String.eqb k' k) eqn:E; simpl; [exact IH | now rewrite E].
Qed.

Lemma get_delete_ne k k' m : k <> k' -> get k' (delete k m) = get k' m.
Proof.
  intros Hne. induction m as [|[k0 v0] m IH]; simpl; [reflexivity|].
  destruct (String.eqb k0 k) eqn:E; simpl.
  - apply String.eqb_eq in E; subst k0.
    destruct (String.eqb k k') eqn:E'; [apply String.eqb_eq in E'; contradiction | exact IH].
  - destruct (String.eqb k0 k'); [reflexivity | exact IH].
Qed.

Lemma has_delete k m : has k (delete k m) = false.
Proof. unfold has. now rewrite get_delete_eq. Qed.

Lemma get_notin k m : ~ In k (keys m) -> get k m = None.
Proof.
  induction m as [|[k' v'] m IH]; simpl; intros H; [reflexivity|].
  destruct (String.eqb k' k) eqn:E.
  - apply String.eqb_eq in E. tauto.
  - apply IH. tauto.
Qed.

Lemma get_none_notin k m : get k m = None -> ~ In k (keys m).
Proof.
  induction m as [|[k' v'] m IH]; simpl; intros H; [tauto|].
  destruct (String.eqb k' k) eqn:E; [discriminate|].
  apply String.eqb_neq in E. intros [Heq|Hin]; [contradiction | now apply IH].
Qed.

Lemma get_in k v m : get k m = Some v -> In (k, v) m.
Proof.
  induction m as [|[k' v'] m IH]; simpl; intros H; [discriminate|].
  destruct (String.eqb k' k) eqn:E.
  - apply String.eqb_eq in E. inversion H; subst. now left.
  - right. now apply IH.
Qed.

Lemma in_get k v m : NoDup (keys m) -> In (k, v) m -> get k m = Some v.
Proof.
  induction m as [|[k' v'] m IH]; simpl; intros Hnd Hin; [contradiction|].
  inversion Hnd as [|? ? Hni Hnd']; subst.
  destruct Hin as [Heq|Hin].
  - inversion Heq; subst. now rewrite String.eqb_refl.
  - destruct (String.eqb k' k) eqn:E.
    + apply String.eqb_eq in E; subst k'.
      exfalso. apply Hni. change k with (fst (k, v)). now apply in_map.
    + now apply IH.
Qed.

Lemma Forall_set (P : string * V -> Prop) k v m :
  Forall P m -> P (k, v) -> Forall P (set k v m).
Proof.
  intros Hm Hv. induction m as [|[k' v'] m IH]; simpl.
  - now constructor.
  - inversion Hm; subst. destruct (String.eqb k' k); constructor; auto.
Qed.

Lemma Forall_delete (P : string * V -> Prop) k m :
  Forall P m -> Forall P (delete k m).
Proof.
  intros Hm. induction m as [|[k' v'] m IH]; simpl; [constructor|].
  inversion Hm; subst. destruct (String.eqb k' k); [auto | constructor; auto].
Qed.

Lemma size_set_pos k v m : size (set k v m) <> 0.
Proof.
  destruct m as [|[k' v'] m]; simpl; [discriminate|].
  destruct (String.eqb k' k); simpl; discriminate.
Qed.

Lemma in_keys_set k k' v m : In k' (keys (set k v m)) <-> k' = k \/ In k' (keys m).
Proof.
  induction m as [|[k0 v0] m IH]; simpl.
  - intuition.
  - destruct (String.eqb k0 k) eqn:E; simpl.
    + apply String.eqb_eq in E; subst k0. intuition.
    + rewrite IH. intuition.
Qed.

Lemma NoDup_set k v m : NoDup (keys m) -> NoDup (keys (set k v m)).
Proof.
  induction m as [|[k0 v0] m IH]; simpl; intros Hnd.
  - constructor; [intros []| constructor].
  - inversion Hnd as [|? ? Hni Hnd']; subst.
    destruct (String.eqb k0 k) eqn:E; simpl.
    + apply String.eqb_eq in E; subst k0. now constructor.
    + constructor; [|now apply IH].
      rewrite in_keys_set. intros [->|Hin]; [|contradiction].
      now rewrite String.eqb_refl in E.
Qed.

Lemma in_keys_delete k k' m : In k' (keys (delete k m)) <-> k' <> k /\ In k' (keys m).
Proof.
  induction m as [|[k0 v0] m IH]; simpl.
  - intuition.
  - destruct (String.eqb k0 k) eqn:E; simpl.
    + apply String.eqb_eq in E; subst k0. rewrite IH. intuition. subst. tauto.
    + apply String.eqb_neq in E. rewrite IH. intuition. subst. tauto.
Qed.

Lemma NoDup_delete k m : NoDup (keys m) -> NoDup (keys (delete k m)).
Proof.
  induction m as [|[k0 v0] m IH]; simpl; intros Hnd; [constructor|].
  inversion Hnd as [|? ? Hni Hnd']; subst.
  destruct (String.eqb k0 k); simpl; [now apply IH|].
  constructor; [|now apply IH].
  rewrite in_keys_delete. tauto.
Qed.

Lemma delete_notin k m : ~ In k (keys m) -> delete k m = m.
Proof.
  induction m as [|[k0 v0] m IH]; simpl; intros H; [reflexivity|].
  destruct (String.eqb k0 k) eqn:E.
  - apply String.eqb_eq in E. tauto.
  - f_equal. apply IH. tauto.
Qed.

Lemma set_app_at k v v0 (a b : JsMap.t V) :
  ~ In k (keys a) -> set k v (a ++ (k, v0) :: b) = a ++ (k, v) :: b.
Proof.
  induction a as [|[k1 v1] a IH]; simpl; intros H.
  - now rewrite String.eqb_refl.
  - destruct (String.eqb k1 k) eqn:E.
    + apply String.eqb_eq in E. tauto.
    + f_equal. apply IH. tauto.
Qed.

Lemma delete_app_at k v (a b : JsMap.t V) :
  ~ In k (keys a) -> ~ In k (keys b) -> delete k (a ++ (k, v) :: b) = a ++ b.
Proof.
  induction a as [|[k1 v1] a IH]; simpl; intros Ha Hb.
  - rewrite String.eqb_refl. now apply delete_notin.
  - destruct (String.eqb k1 k) eqn:E.
    + apply String.eqb_eq in E. tauto.
    + f_equal. apply IH; tauto.
Qed.

Lemma get_app k (a b : JsMap.t V) :
  get k (a ++ b) = match get k a with Some v => Some v | None => get k b end.
Proof.
  induction a as [|[k1 v1] a IH]; simpl; [reflexivity|].
  destruct (String.eqb k1 k); [reflexivity | exact IH].
Qed.

End Facts.
End JsMapFacts.

(** ** The registry invariant *)

Section Registry.
Import JsMap JsMapFacts.

Lemma set_set (k : string) (v v0 : roomInfo) (m : JsMap.t roomInfo) :
  set k v (set k v0 m) = set k v m.
Proof.
  induction m as [|[k' v'] m IH]; simpl.
  - now rewrite String.eqb_refl.
  - destruct (String.eqb k' k) eqn:E; simpl.
    + now rewrite String.eqb_refl.
    + now rewrite E, IH.
Qed.

Lemma rooms_ok_delete_set k (v : roomInfo) (m : JsMap.t roomInfo) :
  rooms_ok m -> rooms_ok (delete k (set k v m)).
Proof.
  unfold rooms_ok. intros Hm.
  induction m as [|[k' v'] m IH]; simpl.
  - rewrite String.eqb_refl. constructor.
  - inversion Hm; subst.
    destruct (String.eqb k' k) eqn:E; simpl.
    + rewrite String.eqb_refl. now apply Forall_delete.
    + rewrite E. constructor; auto.
Qed.

Lemma room_ok_after_set s (u : user) (us : JsMap.t user) :
  room_ok {| users := set s u us; peersCount := size (set s u us) |}.
Proof. split; simpl; [reflexivity | apply size_set_pos]. Qed.

(** [getOrCreateRoom] followed by the assignment of the updated room. *)
Lemma set_after_create k (room1 : roomInfo) (rs : JsMap.t roomInfo) :
  set k room1 (fst (Esm.getOrCreateRoom k rs)) = set k room1 rs.
Proof.
  unfold Esm.getOrCreateRoom; simpl.
  destruct (has k rs); simpl; [reflexivity | apply set_set].
Qed.

Lemma Esm_join_rooms s data env st :
  exists room1,
    rooms (fst (Esm.on_join_room s data env st)) = set (jd_roomId data) room1 (rooms st) /\
    room1 =
      (let us := set s {| username := username_or_default (jd_username data) (env_random env);
                          isHost := jd_isHost data; joinedAt := env_now env |}
                     (users (snd (Esm.getOrCreateRoom (jd_roomId data) (rooms st)))) in
       {| users := us; peersCount := size us |}).
Proof.
  eexists. split; [|reflexivity].
  unfold Esm.on_join_room.
  destruct (Esm.getOrCreateRoom (jd_roomId data) (rooms st)) as [rs1 room] eqn:E.
  cbv zeta. simpl fst. simpl rooms.
  replace rs1 with (fst (Esm.getOrCreateRoom (jd_roomId data) (rooms st))) by now rewrite E.
  now rewrite set_after_create.
Qed.

Lemma Esm_join_ok s data env st :
  rooms_ok (rooms st) -> rooms_ok (rooms (fst (Esm.on_join_room s data env st))).
Proof.
  intros Hok. destruct (Esm_join_rooms s data env st) as [room1 [-> ->]].
  apply Forall_set; [exact Hok | apply room_ok_after_set].
Qed.

Lemma room_ok_after_delete s (us : JsMap.t user) :
  Nat.eqb (size (delete s us)) 0 = false ->
  room_ok {| users := delete s us; peersCount := size (delete s us) |}.
Proof. intros H. apply Nat.eqb_neq in H. split; simpl; [reflexivity | exact H]. Qed.

Lemma Esm_leave_ok s roomId st :
  rooms_ok (rooms st) -> rooms_ok (rooms (fst (Esm.on_leave_room s roomId st))).
Proof.
  intros Hok. unfold Esm.on_leave_room, Esm.getRoom.
  destruct (get roomId (rooms st)) as [room|]; [|exact Hok].
  destruct (has s (users room)); [|exact Hok].
  cbv zeta. simpl peersCount.
  destruct (Nat.eqb (size (delete s (users room))) 0) eqn:E; simpl.
  - now apply rooms_ok_delete_set.
  - apply Forall_set; [exact Hok | now apply room_ok_after_delete].
Qed.

Lemma Esm_visit_ok s acc entry :
  rooms_ok (fst acc) -> rooms_ok (fst (Esm.disconnect_visit s acc entry)).
Proof.
  destruct acc as [rs out], entry as [roomId room]. simpl. intros Hok.
  destruct (has s (users room)); [|exact Hok].
  destruct (Nat.eqb (size (delete s (users room))) 0) eqn:E; simpl.
  - now apply rooms_ok_delete_set.
  - apply Forall_set; [exact Hok | now apply room_ok_after_delete].
Qed.

Lemma Esm_fold_visit_ok s entries acc :
  rooms_ok (fst acc) -> rooms_ok (fst (fold_left (Esm.disconnect_visit s) entries acc)).
Proof.
  revert acc. induction entries as [|e entries IH]; intros acc Hok; simpl; [exact Hok|].
  apply IH. now apply Esm_visit_ok.
Qed.

Lemma Esm_disconnect_ok s st :
  rooms_ok (rooms st) -> rooms_ok (rooms (fst (Esm.on_disconnect s st))).
Proof.
  intros Hok. unfold Esm.on_disconnect.
  pose proof (Esm_fold_visit_ok s (entries (rooms st)) (rooms st, []) Hok) as H.
  destruct (fold_left (Esm.disconnect_visit s) (entries (rooms st)) (rooms st, [])) as [rs out].
  exact H.
Qed.

Lemma Esm_step_ok st e :
  rooms_ok (rooms st) -> rooms_ok (rooms (fst (Esm.step st e))).
Proof.
  intros Hok. destruct e; simpl; try exact Hok.
  - now apply Esm_join_ok.
  - now apply Esm_leave_ok.
  - now apply Esm_disconnect_ok.
Qed.

(** In the ES-module server the invariant holds after every event of
    every run that starts from an invariant state. *)
Lemma Esm_run_ok es : forall st,
  rooms_ok (rooms st) -> rooms_ok (rooms (fst (Esm.run st es))).
Proof.
  induction es as [|e es IH]; intros st Hok; simpl; [exact Hok|].
  pose proof (Esm_step_ok st e Hok) as H1.
  destruct (Esm.step st e) as [st1 out1]. simpl in H1.
  specialize (IH st1 H1).
  destruct (Esm.run st1 es) as [st2 out2]. exact IH.
Qed.

Lemma Esm_registry_invariant es :
  rooms_ok (rooms (fst (Esm.run server_init es))).
Proof. apply Esm_run_ok. constructor. Qed.

(** The two servers share the join, relay and disconnect handlers. *)
Lemma join_room_same : Cjs.on_join_room = Esm.on_join_room.
Proof. reflexivity. Qed.

Lemma disconnect_same : Cjs.on_disconnect = Esm.on_disconnect.
Proof. reflexivity. Qed.

Lemma relay_same :
  Cjs.on_offer = Esm.on_offer /\ Cjs.on_answer = Esm.on_answer /\
  Cjs.on_ice_candidate = Esm.on_ice_candidate.
Proof. repeat split. Qed.

(** In the CommonJS server, join-room and disconnect keep the invariant. *)
Lemma Cjs_join_disconnect_ok st :
  rooms_ok (rooms st) ->
  (forall s data env, rooms_ok (rooms (fst (Cjs.on_join_room s data env st)))) /\
  (forall s, rooms_ok (rooms (fst (Cjs.on_disconnect s st)))).
Proof.
  intros Hok. split; intros.
  - rewrite join_room_same. now apply Esm_join_ok.
  - rewrite disconnect_same. now apply Esm_disconnect_ok.
Qed.

(** In the CommonJS server too, the stored count is the size of the
    participant map after every event. *)
Lemma Cjs_visit_counts s acc entry :
  counts_ok (fst acc) -> counts_ok (fst (Cjs.disconnect_visit s acc entry)).
Proof.
  destruct acc as [rs out], entry as [roomId room]. simpl. intros Hok.
  destruct (has s (users room)); [|exact Hok].
  destruct (Nat.eqb (size (delete s (users room))) 0); simpl.
  - apply Forall_delete. now apply Forall_set.
  - now apply Forall_set.
Qed.

Lemma Cjs_fold_visit_counts s entries acc :
  counts_ok (fst acc) -> counts_ok (fst (fold_left (Cjs.disconnect_visit s) entries acc)).
Proof.
  revert acc. induction entries as [|e entries IH]; intros acc Hok; simpl; [exact Hok|].
  apply IH. now apply Cjs_visit_counts.
Qed.

Lemma Cjs_getRoomInfo_counts roomId rs :
  counts_ok rs -> counts_ok (fst (Cjs.getRoomInfo roomId rs)).
Proof.
  intros Hok. unfold Cjs.getRoomInfo. simpl.
  destruct (negb (has roomId rs)); [|exact Hok].
  now apply Forall_set.
Qed.

Lemma Cjs_step_counts st e :
  counts_ok (rooms st) -> counts_ok (rooms (fst (Cjs.step st e))).
Proof.
  intros Hok. destruct e; unfold Cjs.step; try (simpl; exact Hok).
  - unfold Cjs.on_join_room.
    pose proof (Cjs_getRoomInfo_counts (jd_roomId data) (rooms st) Hok) as H1.
    destruct (Cjs.getRoomInfo (jd_roomId data) (rooms st)) as [rs1 room].
    cbv zeta. cbn [fst rooms]. now apply Forall_set.
  - unfold Cjs.on_leave_room.
    pose proof (Cjs_getRoomInfo_counts roomId (rooms st) Hok) as H1.
    destruct (Cjs.getRoomInfo roomId (rooms st)) as [rs1 room].
    cbv zeta. destruct (has s (users room)); cbn [fst rooms]; [|exact H1].
    now apply Forall_set.
  - unfold Cjs.on_disconnect. cbn [rooms sockets].
    pose proof (Cjs_fold_visit_counts s (entries (rooms st)) (rooms st, []) Hok) as H.
    destruct (fold_left _ _ _) as [rs out]. exact H.
Qed.

Lemma Cjs_count_invariant es : forall st,
  counts_ok (rooms st) -> counts_ok (rooms (fst (Cjs.run st es))).
Proof.
  induction es as [|e es IH]; intros st Hok; simpl; [exact Hok|].
  pose proof (Cjs_step_counts st e Hok) as H1.
  destruct (Cjs.step st e) as [st1 out1]. simpl in H1.
  specialize (IH st1 H1). destruct (Cjs.run st1 es) as [st2 out2]. exact IH.
Qed.

(** C1. The claim: after every join-room, leave-room and disconnect, every
    room of the registry has peersCount equal to the size of its
    participant map and no room with peersCount 0 remains. The CommonJS
    server breaks it on leave-room: when socket "a" joins room "r" and
    leaves it again, room "r" stays in the registry with no participant
    and peersCount 0, so the invariant fails there. (The ES-module server
    keeps the invariant, [Esm_registry_invariant].) *)
Theorem C1_cjs_leave_room_keeps_empty_room :
  rooms (fst (Cjs.run server_init join_then_leave))
    = [("r", {| users := []; peersCount := 0 |})] /\
  ~ rooms_ok (rooms (fst (Cjs.run server_init join_then_leave))) /\
  rooms (fst (Esm.run server_init join_then_leave)) = [].
Proof.
  split; [reflexivity|]. split; [|reflexivity].
  intros H. vm_compute in H. inversion H as [|? ? [_ Hne] _]; subst.
  now apply Hne.
Qed.

End Registry.

(** ** The ready-to-connect trigger *)

Section ReadyToConnect.
Import JsMap JsMapFacts.

Lemma find_first {A : Type} (f : A -> bool) (l : list A) (x : A) :
  find f l = Some x ->
  exists pre post, l = pre ++ x :: post /\ f x = true /\ Forall (fun y => f y = false) pre.
Proof.
  induction l as [|a l IH]; simpl; intros H; [discriminate|].
  destruct (f a) eqn:Fa.
  - inversion H; subst. exists [], l. repeat split; [exact Fa | constructor].
  - destruct (IH H) as (pre & post & -> & Fx & Hpre).
    exists (a :: pre), post. repeat split; [exact Fx | now constructor].
Qed.

Lemma find_host_first (us : JsMap.t user) (h : string) :
  find_host us = Some h -> first_host h us.
Proof.
  unfold find_host, entries. intros H.
  destruct (find (fun kv => isHost (snd kv)) us) as [[k u]|] eqn:F; [|discriminate].
  simpl in H. inversion H; subst k.
  destruct (find_first _ _ _ F) as (pre & post & -> & Fx & Hpre).
  exists pre, u, post. auto.
Qed.

Lemma find_host_none (us : JsMap.t user) :
  find_host us = None -> forall k u, In (k, u) us -> isHost u = false.
Proof.
  unfold find_host, entries. intros H k u Hin.
  destruct (find (fun kv => isHost (snd kv)) us) as [[k' u']|] eqn:F; [discriminate|].
  exact (find_none _ _ F (k, u) Hin).
Qed.

Lemma first_host_in h (us : JsMap.t user) : first_host h us -> In h (keys us).
Proof.
  intros (pre & u & post & -> & _ & _). unfold keys.
  rewrite map_app. apply in_or_app. right. now left.
Qed.

Lemma truthy_nonempty (h : string) : h <> EmptyString -> truthy (Some h) = true.
Proof. destruct h; [congruence | reflexivity]. Qed.

(** The emissions of a join, spelled out on the room it leaves in the
    registry. *)
Lemma Esm_join_out s data env st :
  exists room1,
    JsMap.get (jd_roomId data) (rooms (fst (Esm.on_join_room s data env st))) = Some room1 /\
    peersCount room1 = size (users room1) /\
    In s (keys (users room1)) /\
    filter is_ready (snd (Esm.on_join_room s data env st)) =
      (if Nat.eqb (peersCount room1) 2 then
         match find_host (users room1) with
         | Some h => if truthy (Some h) then [mkEmit s (ToRoom h) ReadyToConnect] else []
         | None => []
         end
       else []).
Proof.
  unfold Esm.on_join_room.
  destruct (Esm.getOrCreateRoom (jd_roomId data) (rooms st)) as [rs1 room].
  cbv zeta. eexists. simpl fst. simpl snd. simpl rooms.
  split; [apply get_set_eq|]. split; [reflexivity|]. split.
  - simpl users. apply in_keys_set. now left.
  - simpl peersCount. simpl users.
    destruct (Nat.eqb _ 2); [|reflexivity].
    destruct (find_host _) as [h|]; [|reflexivity].
    destruct (truthy (Some h)); reflexivity.
Qed.

(** Delivery by socket.io: an [io.to(h)] reaches socket [h] and no other
    socket when [h] is connected and the room named [h] holds [h] only. *)
Lemma keys_in_room h (sk : JsMap.t (list string)) :
  NoDup (keys sk) ->
  (forall k rs, In (k, rs) sk -> (mem h rs = true <-> k = h)) ->
  keys (filter (fun kv => mem h (snd kv)) sk)
    = if existsb (String.eqb h) (keys sk) then [h] else [].
Proof.
  induction sk as [|[k rs] sk IH]; simpl; intros Hnd Hroom; [reflexivity|].
  inversion Hnd as [|? ? Hni Hnd']; subst.
  assert (IH' := IH Hnd' (fun k' rs' Hin => Hroom k' rs' (or_intror Hin))).
  destruct (String.eqb h k) eqn:E.
  - apply String.eqb_eq in E; subst k.
    replace (mem h rs) with true by (symmetry; now apply (Hroom h rs); [left|]).
    simpl. rewrite IH'.
    replace (existsb (String.eqb h) (keys sk)) with false; [reflexivity|].
    symmetry. apply not_true_is_false. intros Hex.
    apply existsb_exists in Hex. destruct Hex as (x & Hin & Hx).
    apply String.eqb_eq in Hx; subst x. contradiction.
  - replace (mem h rs) with false; [exact IH'|].
    symmetry. apply not_true_is_false. intros Hm.
    apply (Hroom k rs) in Hm; [|now left]. subst k.
    now rewrite String.eqb_refl in E.
Qed.

Lemma recipients_unicast (sk : JsMap.t (list string)) s h msg :
  NoDup (keys sk) ->
  In h (keys sk) ->
  (forall k rs, In (k, rs) sk -> (mem h rs = true <-> k = h)) ->
  recipients sk (mkEmit s (ToRoom h) msg) = [h].
Proof.
  intros Hnd Hin Hroom. unfold recipients. simpl.
  rewrite keys_in_room by assumption.
  replace (existsb (String.eqb h) (keys sk)) with true; [reflexivity|].
  symmetry. apply existsb_exists. exists h. split; [exact Hin | apply String.eqb_refl].
Qed.

(** The scenario of the two peers: "a" creates room "abc123" as host, "b"
    joins it as guest. "b" gets room-joined, "a" gets peer-joined and
    ready-to-connect. *)
Example scenario_alice_bob :
  let r := Esm.on_join_room "b" bob env0 st_alice in
  map (fun e => (recipients (sockets (fst r)) e, em_msg e)) (snd r)
    = [(["b"], RoomJoined "abc123" 2 false);
       (["a"], PeerJoined "b" 2 "Bob");
       (["a"], ReadyToConnect)].
Proof. reflexivity. Qed.

(** The emit calls of a join-room. When the join brings the room's
    peersCount to exactly 2 and some participant of the room has isHost
    set, the handler makes exactly one ready-to-connect call, addressed
    (io.to) to the room named by the socket id of the first host in
    iteration order; when the count after the join is not 2, or no
    participant has isHost set, it makes none. Holds for both servers.
    Socket ids are taken to be non-empty strings, as socket.io's are.
    Which sockets the call reaches is another matter: see
    [recipients_unicast] and the theorem that follows. *)
Lemma ready_to_connect_emit_call
  (join : string -> joinData -> joinEnv -> server -> server * list emission)
  (Hjoin : join = Cjs.on_join_room \/ join = Esm.on_join_room)
  (s : string) (data : joinData) (env : joinEnv) (st : server) :
  exists room1,
    JsMap.get (jd_roomId data) (rooms (fst (join s data env st))) = Some room1 /\
    (peersCount room1 = 2 ->
     (exists k u, In (k, u) (users room1) /\ isHost u = true) ->
     (forall k, In k (keys (users room1)) -> k <> EmptyString) ->
     exists h, first_host h (users room1) /\
               filter is_ready (snd (join s data env st)) = [mkEmit s (ToRoom h) ReadyToConnect]) /\
    (peersCount room1 <> 2 \/ (forall k u, In (k, u) (users room1) -> isHost u = false) ->
     filter is_ready (snd (join s data env st)) = []).
Proof.
  assert (join = Esm.on_join_room) as -> by (destruct Hjoin as [->| ->]; reflexivity).
  destruct (Esm_join_out s data env st) as (room1 & Hget & _ & _ & Hout).
  exists room1. split; [exact Hget|]. rewrite Hout. split.
  - intros H2 (k & u & Hin & Hu) Hid.
    rewrite H2. simpl Nat.eqb. cbv iota.
    destruct (find_host (users room1)) as [h|] eqn:F.
    + pose proof (find_host_first _ _ F) as Hfirst.
      exists h. split; [exact Hfirst|].
      rewrite truthy_nonempty; [reflexivity|].
      apply Hid. now apply first_host_in.
    + rewrite (find_host_none _ F k u Hin) in Hu. discriminate.
  - intros [Hne | Hnone].
    + apply Nat.eqb_neq in Hne. now rewrite Hne.
    + destruct (Nat.eqb _ 2); [|reflexivity].
      destruct (find_host (users room1)) as [h|] eqn:F; [|reflexivity].
      destruct (find_host_first _ _ F) as (pre & u & post & Hus & Hu & _).
      rewrite (Hnone h u) in Hu; [discriminate|].
      rewrite Hus. apply in_or_app. right. now left.
Qed.

(** The guest "b" joins the room in which "a" waits as host. *)
Lemma ready_to_connect_emit_call_example :
  exists h,
    filter is_ready (snd (Esm.on_join_room "b" bob env0 st_alice))
      = [mkEmit "b" (ToRoom h) ReadyToConnect].
Proof.
  destruct (ready_to_connect_emit_call Esm.on_join_room (or_intror eq_refl)
              "b" bob env0 st_alice) as (room1 & Hget & Hyes & _).
  vm_compute in Hget. inversion Hget; subst room1.
  destruct Hyes as (h & _ & Hout).
  - reflexivity.
  - exists "a", {| username := "Alice"; isHost := true; joinedAt := 0 |}.
    split; [now left | reflexivity].
  - simpl. intros k [<-|[<-|[]]]; discriminate.
  - exists h. exact Hout.
Defined.

(** C2. The claim: when a join-room brings a room's peersCount to 2 and a
    participant has isHost set, exactly one ready-to-connect goes to the
    connection of the first host, and to no other connection. The servers
    make the one call, [io.to(hostSocket)], but its address is the
    socket.io room named by the host's socket id, and room names are
    whatever a client sends in join-room. So the message does not always
    go to the host alone. When socket "c" has joined the room named "a",
    the id of the host, the ready-to-connect of the join of "b" reaches
    "a" and "c", in both servers. And in the CommonJS server, when the
    host has sent leave-room for the name of its own id, it reaches no
    socket at all (the ES-module server returns before [socket.leave]
    there, and the host still gets it). *)
Theorem C2_ready_to_connect_reaches_other_sockets :
  ready_recipients (Cjs.run server_init named_like_a_socket) = [["a"; "c"]] /\
  ready_recipients (Esm.run server_init named_like_a_socket) = [["a"; "c"]] /\
  map em_dest (filter is_ready (snd (Cjs.run server_init named_like_a_socket)))
    = [ToRoom "a"] /\
  ready_recipients (Cjs.run server_init own_room_left) = [[]] /\
  ready_recipients (Esm.run server_init own_room_left) = [["a"]].
Proof. repeat split. Qed.

End ReadyToConnect.

(** ** What join-room does to the other rooms *)

Section JoinRoom.
Import JsMap JsMapFacts.

Lemma mem_In (r : string) (l : list string) : mem r l = true <-> In r l.
Proof.
  unfold mem. rewrite existsb_exists. split.
  - intros (x & Hin & Heq). apply String.eqb_eq in Heq. now subst.
  - intros Hin. exists r. split; [exact Hin | apply String.eqb_refl].
Qed.

Lemma socket_rooms_leave s room sk :
  socket_rooms s (socket_leave s room sk)
    = filter (fun r => negb (String.eqb r room)) (socket_rooms s sk).
Proof. unfold socket_leave. unfold socket_rooms at 1. now rewrite get_set_eq. Qed.

Lemma socket_rooms_join s room sk :
  socket_rooms s (socket_join s room sk)
    = if mem room (socket_rooms s sk) then socket_rooms s sk else socket_rooms s sk ++ [room].
Proof. unfold socket_join. unfold socket_rooms at 1. now rewrite get_set_eq. Qed.

(** The loop that leaves every room but the socket's own. *)
Lemma leave_loop_rooms s (l : list string) : forall sk r,
  In r (socket_rooms s
          (fold_left (fun sk room => if negb (String.eqb room s) then socket_leave s room sk else sk)
                     l sk)) ->
  In r (socket_rooms s sk) /\ (r = s \/ ~ In r l).
Proof.
  induction l as [|x l IH]; intros sk r Hin; simpl in Hin.
  - split; [exact Hin | right; intros []].
  - apply IH in Hin. destruct Hin as [Hin Hr].
    destruct (String.eqb x s) eqn:E; simpl in Hin.
    + apply String.eqb_eq in E; subst x. split; [exact Hin|].
      destruct Hr as [Hr|Hr]; [now left|].
      destruct (String.eqb r s) eqn:E'; [apply String.eqb_eq in E'; now left|].
      apply String.eqb_neq in E'. right. intros [Heq|Hl]; [congruence | contradiction].
    + rewrite socket_rooms_leave in Hin. apply filter_In in Hin. destruct Hin as [Hin Hx].
      split; [exact Hin|].
      destruct Hr as [Hr|Hr]; [now left|]. right.
      intros [Heq|Hl]; [|contradiction].
      subst x. now rewrite String.eqb_refl in Hx.
Qed.

Lemma created_room_users k (rs : JsMap.t roomInfo) :
  users (snd (Esm.getOrCreateRoom k rs))
    = match get k rs with Some room => users room | None => [] end.
Proof.
  unfold Esm.getOrCreateRoom, has. simpl.
  destruct (get k rs) as [room|] eqn:G; simpl.
  - now rewrite G.
  - now rewrite get_set_eq.
Qed.

Lemma Esm_join_sockets s data env st :
  sockets (fst (Esm.on_join_room s data env st)) =
    socket_join s (jd_roomId data)
      (fold_left (fun sk room => if negb (String.eqb room s) then socket_leave s room sk else sk)
                 (socket_rooms s (sockets st)) (sockets st)).
Proof.
  unfold Esm.on_join_room.
  now destruct (Esm.getOrCreateRoom (jd_roomId data) (rooms st)).
Qed.

(** What join-room does to the registry and to the socket.io membership,
    in both servers: it takes the socket out of every socket.io broadcast
    room other than its own and the target, it inserts or overwrites the
    socket's entry in the participant map of the target room (created if
    absent) and keeps the other entries of that map, and it leaves the
    entry of every other room of the registry exactly as it was, the
    socket's own entry in it included. *)
Lemma join_leaves_other_rooms_untouched
  (join : string -> joinData -> joinEnv -> server -> server * list emission)
  (Hjoin : join = Cjs.on_join_room \/ join = Esm.on_join_room)
  (s : string) (data : joinData) (env : joinEnv) (st : server) :
  (forall r, r <> jd_roomId data ->
     JsMap.get r (rooms (fst (join s data env st))) = JsMap.get r (rooms st)) /\
  in_room s (jd_roomId data) (rooms (fst (join s data env st))) = true /\
  (exists room1,
     JsMap.get (jd_roomId data) (rooms (fst (join s data env st))) = Some room1 /\
     JsMap.get s (users room1)
       = Some {| username := username_or_default (jd_username data) (env_random env);
                 isHost := jd_isHost data;
                 joinedAt := env_now env |} /\
     forall k, k <> s ->
       JsMap.get k (users room1)
         = match JsMap.get (jd_roomId data) (rooms st) with
           | Some room => JsMap.get k (users room)
           | None => None
           end) /\
  (forall r, In r (socket_rooms s (sockets (fst (join s data env st)))) ->
     r = s \/ r = jd_roomId data) /\
  In (jd_roomId data) (socket_rooms s (sockets (fst (join s data env st)))).
Proof.
  assert (join = Esm.on_join_room) as -> by (destruct Hjoin as [->| ->]; reflexivity).
  split; [|split; [|split; [|split]]].
  - intros r Hne. destruct (Esm_join_rooms s data env st) as [room1 [-> _]].
    apply get_set_ne. congruence.
  - destruct (Esm_join_rooms s data env st) as [room1 [-> ->]].
    unfold in_room. rewrite get_set_eq. cbv zeta. simpl users.
    unfold has. now rewrite get_set_eq.
  - destruct (Esm_join_rooms s data env st) as [room1 [-> ->]].
    eexists. split; [apply get_set_eq|]. cbv zeta. cbn [users].
    split; [apply get_set_eq|].
    intros k Hne. rewrite get_set_ne by congruence.
    rewrite created_room_users. now destruct (get (jd_roomId data) (rooms st)).
  - intros r Hin. rewrite Esm_join_sockets, socket_rooms_join in Hin.
    assert (In r (socket_rooms s
               (fold_left (fun sk room => if negb (String.eqb room s) then socket_leave s room sk else sk)
                          (socket_rooms s (sockets st)) (sockets st))) \/ r = jd_roomId data) as [H|H].
    { destruct (mem _ _); [now left|].
      apply in_app_or in Hin. destruct Hin as [Hin|[<-|[]]]; [now left | now right]. }
    + apply leave_loop_rooms in H. destruct H as [Hin' [Hs|Hni]]; [now left | contradiction].
    + now right.
  - rewrite Esm_join_sockets, socket_rooms_join.
    destruct (mem _ _) eqn:M.
    + now apply mem_In.
    + apply in_or_app. right. now left.
Qed.

(** Socket "a", host of room "abc123", joins room "B". *)
Lemma join_leaves_other_rooms_untouched_example :
  JsMap.get "abc123"
    (rooms (fst (Cjs.on_join_room "a"
                   {| jd_roomId := "B"; jd_isHost := true; jd_username := None |} env0 st_alice)))
    = JsMap.get "abc123" (rooms st_alice).
Proof.
  apply (join_leaves_other_rooms_untouched Cjs.on_join_room (or_introl eq_refl)
           "a" {| jd_roomId := "B"; jd_isHost := true; jd_username := None |} env0 st_alice).
  simpl. discriminate.
Defined.

(** C3. The claim: join removes the joining id from the participant map
    of every other room, so that an id is in at most one room. The
    handlers mean to ("Leave any existing rooms") but only call
    [socket.leave]: the registry entry of the room left behind is not
    touched. After socket "a" has joined room "A" and then room "B", it is
    in the participant maps of both rooms, in either server, and the
    health report counts two users for the one socket. The entry left in
    "A" is then counted as a peer: when "b" joins "A", it is told a count
    of 2, its peer-joined reaches no socket, and the ready-to-connect goes
    to "a", which has left that room. *)
Theorem C3_join_keeps_stale_registry_entry :
  in_room "a" "A" (rooms (fst (Cjs.run server_init two_joins))) = true /\
  in_room "a" "B" (rooms (fst (Cjs.run server_init two_joins))) = true /\
  in_room "a" "A" (rooms (fst (Esm.run server_init two_joins))) = true /\
  in_room "a" "B" (rooms (fst (Esm.run server_init two_joins))) = true /\
  "A" <> "B" /\
  JsMap.keys (sockets (fst (Esm.run server_init two_joins))) = ["a"] /\
  totalUsers (Cjs.health "now" (fst (Cjs.run server_init two_joins))) = 2 /\
  totalUsers (Esm.health "now" (fst (Esm.run server_init two_joins))) = 2 /\
  deliveries (Cjs.on_join_room "b" bob_joins_A env0 st_moved_on)
    = [(["b"], RoomJoined "A" 2 false);
       ([], PeerJoined "b" 2 "Bob");
       (["a"], ReadyToConnect)] /\
  deliveries (Esm.on_join_room "b" bob_joins_A env0 st_moved_on)
    = [(["b"], RoomJoined "A" 2 false);
       ([], PeerJoined "b" 2 "Bob");
       (["a"], ReadyToConnect)].
Proof. repeat split; discriminate. Qed.

End JoinRoom.

(** ** Disconnect *)

Section DisconnectHandler.
Import JsMap JsMapFacts.

Lemma keys_app {V : Type} (a b : JsMap.t V) : keys (a ++ b) = keys a ++ keys b.
Proof. apply map_app. Qed.

Lemma visit_at s visited k room todo out :
  ~ In k (keys visited) -> ~ In k (keys todo) ->
  Esm.disconnect_visit s (visited ++ (k, room) :: todo, out) (k, room)
    = ((visited ++ remains s (k, room)) ++ todo,
       out ++ map (peer_left_of s) (filter (affected s) [(k, room)])).
Proof.
  intros Hkv Hkt. unfold Esm.disconnect_visit, remains, affected, without.
  simpl snd. simpl fst. simpl filter. unfold affected. simpl snd.
  destruct (has s (users room)) eqn:Hhas.
  - cbv zeta. simpl peersCount. rewrite set_app_at by exact Hkv.
    destruct (Nat.eqb (size (delete s (users room))) 0) eqn:E.
    + rewrite delete_app_at by assumption. now rewrite app_nil_r.
    + rewrite <- app_assoc. reflexivity.
  - rewrite <- app_assoc. simpl. now rewrite app_nil_r.
Qed.

Lemma NoDup_remains s visited k room todo :
  NoDup (keys (visited ++ (k, room) :: todo)) ->
  NoDup (keys ((visited ++ remains s (k, room)) ++ todo)).
Proof.
  intros Hnd. unfold remains. simpl.
  destruct (has s (users room)); [destruct (without s room)|]; simpl;
    rewrite <- ?app_assoc, ?app_nil_r; simpl;
    rewrite keys_app in *; simpl in *; try exact Hnd.
  now apply NoDup_remove_1 in Hnd.
Qed.

(** The loop, started on a registry whose first part has been visited. *)
Lemma visit_loop s (todo : list (string * roomInfo)) : forall visited out,
  NoDup (keys (visited ++ todo)) ->
  fold_left (Esm.disconnect_visit s) todo (visited ++ todo, out)
    = (visited ++ flat_map (remains s) todo,
       out ++ map (peer_left_of s) (filter (affected s) todo)).
Proof.
  induction todo as [|[k room] todo IH]; intros visited out Hnd.
  - simpl. now rewrite !app_nil_r.
  - assert (Hk : ~ In k (keys visited) /\ ~ In k (keys todo)).
    { rewrite keys_app in Hnd. simpl in Hnd. apply NoDup_remove_2 in Hnd.
      split; intros H; apply Hnd; apply in_or_app; [now left | now right]. }
    destruct Hk as [Hkv Hkt].
    cbn [fold_left]. rewrite visit_at by assumption.
    rewrite IH by now apply NoDup_remains.
    cbn [flat_map]. rewrite <- !app_assoc. f_equal. f_equal.
    rewrite <- map_app. f_equal.
    cbn [filter]. now destruct (affected s (k, room)).
Qed.

Lemma Esm_disconnect_lists s st :
  NoDup (keys (rooms st)) ->
  Esm.on_disconnect s st
    = ({| rooms := flat_map (remains s) (rooms st); sockets := sockets st |},
       map (peer_left_of s) (filter (affected s) (rooms st))).
Proof.
  intros Hnd. unfold Esm.on_disconnect, entries.
  pose proof (visit_loop s (rooms st) [] [] Hnd) as H. cbn [app] in H.
  unfold JsMap.t in *. now rewrite H.
Qed.

Lemma keys_remains s (m : list (string * roomInfo)) k :
  In k (keys (flat_map (remains s) m)) -> In k (keys m).
Proof.
  induction m as [|[k0 room] m IH]; simpl; [tauto|].
  rewrite keys_app. intros H. apply in_app_or in H. destruct H as [H|H]; [|right; auto].
  left. unfold remains in H. simpl in H.
  destruct (has s (users room)); [destruct (without s room)|]; simpl in H; tauto.
Qed.

Lemma get_remains s (m : list (string * roomInfo)) r :
  NoDup (keys m) ->
  get r (flat_map (remains s) m)
    = match get r m with
      | Some room => if has s (users room) then without s room else Some room
      | None => None
      end.
Proof.
  induction m as [|[k room] m IH]; simpl; intros Hnd; [reflexivity|].
  inversion Hnd as [|? ? Hni Hnd']; subst.
  rewrite get_app. destruct (String.eqb k r) eqn:E.
  - apply String.eqb_eq in E; subst k.
    unfold remains at 1. simpl.
    destruct (has s (users room)); [destruct (without s room)|]; simpl;
      rewrite ?String.eqb_refl; try reflexivity.
    apply get_notin. intros H. apply Hni. now apply keys_remains in H.
  - replace (get r (remains s (k, room))) with (@None roomInfo); [now apply IH|].
    unfold remains. simpl.
    destruct (has s (users room)); [destruct (without s room)|]; simpl;
      rewrite ?E; reflexivity.
Qed.

(** C4. On disconnect of socket [s] (both servers; the registry is a Map,
    so its keys are distinct): every room whose participant map held [s]
    loses [s], and is deleted when [s] was its only participant; every
    other room is unchanged; [s] is in no room afterwards; and the handler
    emits, in the iteration order of the registry, exactly one peer-left
    per room that held [s], with that room's count after the removal and
    the username [s] had in that room. *)
Theorem C4_disconnect_cleans_every_room
  (disc : string -> server -> server * list emission)
  (Hdisc : disc = Cjs.on_disconnect \/ disc = Esm.on_disconnect)
  (s : string) (st : server)
  (Hmap : NoDup (JsMap.keys (rooms st))) :
  (forall r,
     JsMap.get r (rooms (fst (disc s st)))
       = match JsMap.get r (rooms st) with
         | Some room => if JsMap.has s (users room) then without s room else Some room
         | None => None
         end) /\
  (forall r, in_room s r (rooms (fst (disc s st))) = false) /\
  snd (disc s st)
    = map (peer_left_of s) (filter (fun kv => JsMap.has s (users (snd kv))) (rooms st)) /\
  filter is_peer_left (snd (disc s st)) = snd (disc s st).
Proof.
  assert (disc = Esm.on_disconnect) as -> by (destruct Hdisc as [->| ->]; reflexivity).
  rewrite (Esm_disconnect_lists s st Hmap). simpl fst. simpl snd. simpl rooms.
  assert (Hget := fun r => get_remains s (rooms st) r Hmap).
  split; [exact Hget|]. split; [|split].
  - intros r. unfold in_room. rewrite Hget.
    destruct (get r (rooms st)) as [room|]; [|reflexivity].
    destruct (has s (users room)) eqn:Hhas; [|exact Hhas].
    unfold without. destruct (Nat.eqb _ 0); [reflexivity|]. simpl. apply has_delete.
  - reflexivity.
  - unfold affected. induction (filter _ (rooms st)) as [|kv l IH]; simpl; [reflexivity|].
    now rewrite IH.
Qed.

(** Socket "b" of [st_two_rooms] disconnects: one peer-left for "R1",
    one for "R2". *)
Lemma C4_disconnect_cleans_every_room_witness :
  snd (Cjs.on_disconnect "b" st_two_rooms)
    = [mkEmit "b" (ToRoomExceptSender "R1") (PeerLeft "b" 1 "Bob");
       mkEmit "b" (ToRoomExceptSender "R2") (PeerLeft "b" 0 "Bob")] /\
  JsMap.get "R2" (rooms (fst (Cjs.on_disconnect "b" st_two_rooms))) = None.
Proof.
  assert (Hmap : NoDup (JsMap.keys (rooms st_two_rooms))).
  { vm_compute. constructor; [intros [H|[]]; discriminate|].
    constructor; [intros []| constructor]. }
  destruct (C4_disconnect_cleans_every_room Cjs.on_disconnect (or_introl eq_refl)
              "b" st_two_rooms Hmap) as (Hget & _ & Hout & _).
  split.
  - rewrite Hout. reflexivity.
  - rewrite Hget. reflexivity.
Defined.

(** The keys of the registry stay distinct, in both servers. *)
Lemma visit_nodup s acc entry :
  NoDup (keys (fst acc)) -> NoDup (keys (fst (Esm.disconnect_visit s acc entry))).
Proof.
  destruct acc as [rs out], entry as [roomId room]. simpl. intros Hnd.
  destruct (has s (users room)); [|exact Hnd].
  destruct (Nat.eqb _ 0); simpl.
  - now apply NoDup_delete, NoDup_set.
  - now apply NoDup_set.
Qed.

Lemma fold_visit_nodup s l acc :
  NoDup (keys (fst acc)) -> NoDup (keys (fst (fold_left (Esm.disconnect_visit s) l acc))).
Proof.
  revert acc. induction l as [|e l IH]; intros acc Hnd; simpl; [exact Hnd|].
  apply IH. now apply visit_nodup.
Qed.

Lemma Esm_step_nodup st e :
  NoDup (keys (rooms st)) -> NoDup (keys (rooms (fst (Esm.step st e)))).
Proof.
  intros Hnd. destruct e; unfold Esm.step; try (simpl; exact Hnd).
  - destruct (Esm_join_rooms s data env st) as [room1 [-> _]]. now apply NoDup_set.
  - unfold Esm.on_leave_room, Esm.getRoom.
    destruct (get roomId (rooms st)) as [room|]; [|exact Hnd].
    destruct (has s (users room)); [|exact Hnd].
    cbv zeta. destruct (Nat.eqb _ 0); simpl.
    + now apply NoDup_delete, NoDup_set.
    + now apply NoDup_set.
  - unfold Esm.on_disconnect. cbn [rooms sockets].
    pose proof (fold_visit_nodup s (entries (rooms st)) (rooms st, []) Hnd) as H.
    destruct (fold_left _ _ _) as [rs out]. exact H.
Qed.

Lemma Cjs_step_nodup st e :
  NoDup (keys (rooms st)) -> NoDup (keys (rooms (fst (Cjs.step st e)))).
Proof.
  intros Hnd. destruct e; try exact (Esm_step_nodup st _ Hnd).
  - exact (Esm_step_nodup st (Connection s) Hnd).
  - exact (Esm_step_nodup st (JoinRoom s data env) Hnd).
  - exact (Esm_step_nodup st (Offer s roomId offer) Hnd).
  - exact (Esm_step_nodup st (Answer s roomId answer) Hnd).
  - exact (Esm_step_nodup st (IceCandidate s roomId candidate) Hnd).
  - simpl. unfold Cjs.on_leave_room, Cjs.getRoomInfo.
    assert (Hnd1 : NoDup (keys (if negb (has roomId (rooms st))
                                then set roomId {| users := empty; peersCount := 0 |} (rooms st)
                                else rooms st))).
    { destruct (negb _); [now apply NoDup_set | exact Hnd]. }
    cbv zeta. destruct (has s _); simpl; [now apply NoDup_set | exact Hnd1].
  - exact (Esm_step_nodup st (Disconnect s) Hnd).
Qed.

Lemma Esm_run_nodup es : forall st,
  NoDup (keys (rooms st)) -> NoDup (keys (rooms (fst (Esm.run st es)))).
Proof.
  induction es as [|e es IH]; intros st Hnd; simpl; [exact Hnd|].
  pose proof (Esm_step_nodup st e Hnd) as H1.
  destruct (Esm.step st e) as [st1 out1]. simpl in H1.
  specialize (IH st1 H1). destruct (Esm.run st1 es) as [st2 out2]. exact IH.
Qed.

Lemma Cjs_run_nodup es : forall st,
  NoDup (keys (rooms st)) -> NoDup (keys (rooms (fst (Cjs.run st es)))).
Proof.
  induction es as [|e es IH]; intros st Hnd; simpl; [exact Hnd|].
  pose proof (Cjs_step_nodup st e Hnd) as H1.
  destruct (Cjs.step st e) as [st1 out1]. simpl in H1.
  specialize (IH st1 H1). destruct (Cjs.run st1 es) as [st2 out2]. exact IH.
Qed.

End DisconnectHandler.

(** ** leave-room *)

Section LeaveRoom.
Import JsMap JsMapFacts.

(** In the ES-module server a leave-room of a socket that is not in the
    named room changes nothing in the registry and emits nothing. *)
Lemma Esm_leave_absent_noop s roomId st :
  in_room s roomId (rooms st) = false ->
  rooms (fst (Esm.on_leave_room s roomId st)) = rooms st /\
  snd (Esm.on_leave_room s roomId st) = [].
Proof.
  unfold in_room, Esm.on_leave_room, Esm.getRoom.
  destruct (get roomId (rooms st)) as [room|]; [|now split].
  intros ->. now split.
Qed.

(** So does the CommonJS server when the named room exists. *)
Lemma Cjs_leave_absent_participant s roomId st room :
  get roomId (rooms st) = Some room ->
  has s (users room) = false ->
  rooms (fst (Cjs.on_leave_room s roomId st)) = rooms st /\
  snd (Cjs.on_leave_room s roomId st) = [].
Proof.
  intros Hget Hhas. unfold Cjs.on_leave_room, Cjs.getRoomInfo.
  assert (Hroom : has roomId (rooms st) = true) by (unfold has; now rewrite Hget).
  rewrite Hroom. cbn [negb]. cbv zeta.
  rewrite Hget, Hhas. now split.
Qed.

(** Neither server broadcasts peer-left for a socket that is not in the
    named room. *)
Lemma Cjs_leave_absent_no_broadcast s roomId st :
  in_room s roomId (rooms st) = false ->
  snd (Cjs.on_leave_room s roomId st) = [].
Proof.
  unfold in_room. intros Hin.
  destruct (get roomId (rooms st)) as [room|] eqn:G.
  - now apply (Cjs_leave_absent_participant s roomId st room).
  - unfold Cjs.on_leave_room, Cjs.getRoomInfo, has. rewrite G. cbn [negb].
    cbv zeta. now rewrite get_set_eq.
Qed.

(** C5. The claim: a leave-room for a participant that is not in the named
    room emits no peer-left and leaves the registry exactly unchanged. The
    CommonJS server breaks it when the named room does not exist: socket
    "b", which is in no room, sends leave-room for "zzz"; no peer-left is
    emitted, but [getRoomInfo] has put an empty room "zzz" in the
    registry. The ES-module server leaves the registry as it was
    ([Esm_leave_absent_noop]). *)
Theorem C5_cjs_leave_room_creates_room :
  in_room "b" "zzz" (rooms st_alice) = false /\
  snd (Cjs.on_leave_room "b" "zzz" st_alice) = [] /\
  rooms (fst (Cjs.on_leave_room "b" "zzz" st_alice))
    = rooms st_alice ++ [("zzz", {| users := []; peersCount := 0 |})] /\
  rooms (fst (Cjs.on_leave_room "b" "zzz" st_alice)) <> rooms st_alice /\
  rooms (fst (Esm.on_leave_room "b" "zzz" st_alice)) = rooms st_alice.
Proof.
  repeat split. vm_compute. discriminate.
Qed.

(** C10. The claim: the two servers end in the same registry and emit the
    same messages on every sequence of events. They do not. After socket
    "a" has joined room "r" and left it, the CommonJS server still holds
    room "r", empty, and the ES-module server holds no room. And because
    the CommonJS server keeps the emptied room "A" at its place in the
    Map, a later disconnect of a socket that is in "A" and "B" broadcasts
    peer-left to "A" first there, and to "B" first in the ES-module
    server. *)
Theorem C10_servers_differ_on_leave_room :
  rooms (fst (Cjs.run server_init join_then_leave))
    = [("r", {| users := []; peersCount := 0 |})] /\
  rooms (fst (Esm.run server_init join_then_leave)) = [] /\
  filter is_peer_left (snd (Cjs.run server_init rejoin_then_disconnect))
    = [mkEmit "a" (ToRoomExceptSender "A") (PeerLeft "a" 0 "Alice");
       mkEmit "a" (ToRoomExceptSender "A") (PeerLeft "a" 0 "Alice");
       mkEmit "a" (ToRoomExceptSender "B") (PeerLeft "a" 0 "Alice")] /\
  filter is_peer_left (snd (Esm.run server_init rejoin_then_disconnect))
    = [mkEmit "a" (ToRoomExceptSender "A") (PeerLeft "a" 0 "Alice");
       mkEmit "a" (ToRoomExceptSender "B") (PeerLeft "a" 0 "Alice");
       mkEmit "a" (ToRoomExceptSender "A") (PeerLeft "a" 0 "Alice")].
Proof. repeat split. Qed.

(** Apart from leave-room, a step of one server is a step of the other. *)
Lemma step_same_but_leave st e :
  (forall s roomId, e <> LeaveRoom s roomId) -> Cjs.step st e = Esm.step st e.
Proof.
  intros Hne. destruct e; try reflexivity.
  exfalso. now apply (Hne s roomId).
Qed.

Lemma run_same_without_leave es : forall st,
  (forall s roomId, ~ In (LeaveRoom s roomId) es) -> Cjs.run st es = Esm.run st es.
Proof.
  induction es as [|e es IH]; intros st Hno; simpl; [reflexivity|].
  rewrite step_same_but_leave.
  - destruct (Esm.step st e) as [st1 out1]. rewrite IH; [reflexivity|].
    intros s roomId Hin. apply (Hno s roomId). now right.
  - intros s roomId ->. apply (Hno s roomId). now left.
Qed.

End LeaveRoom.

(** ** The client *)

Section ClientProperties.
Import Client.
Context {wire : Type} {codec : JsonCodec wire}.

Ltac split_ifs :=
  repeat match goal with
         | |- context [if ?b then _ else _] => destruct b
         | |- context [match ?x with Some _ => _ | None => _ end] => destruct x
         end.

(** Handlers other than the one of ready-to-connect touch no offer. *)
Lemma no_offer_elsewhere (env : rtcEnv) (m : manager) (e : cevent wire) :
  e <> SockReadyToConnect ->
  existsb offer_action (trace (step env m e)) = false.
Proof.
  intros Hne. destruct m as [sk pc dc room host cbs name n].
  destruct e; try congruence; clear Hne;
    unfold step, initialize, sendMessage, syncPlayer, disconnect, on_connect,
      on_disconnect, on_room_joined, on_peer_joined, on_peer_left, on_offer,
      on_answer, on_ice_candidate, pc_onicecandidate, pc_onconnectionstatechange,
      pc_ondatachannel, dc_onopen, dc_onclose, dc_onmessage, channel_open,
      done, cb, emit, set_dataChannel, set_peersCount;
    cbn [socket peerConnection dataChannel roomId isHost callbacks username
         peersCount post trace raised];
    try (destruct state);
    split_ifs; try (destruct r); reflexivity.
Qed.

(** C6. From any state of the manager and for any event that runs code of
    the class (public method, signaling handler, peer-connection handler,
    data-channel handler): if the code creates an offer or emits one, the
    event is the receipt of ready-to-connect and the manager is the host.
    A non-host that receives ready-to-connect does nothing: no call, no
    emission, state unchanged. *)
Theorem C6_offer_only_on_ready_to_connect
  (env : rtcEnv) (m : manager) (e : cevent wire) :
  (existsb offer_action (trace (step env m e)) = true ->
   e = SockReadyToConnect /\ isHost m = true) /\
  (isHost m = false -> step env m SockReadyToConnect = done m []).
Proof.
  split.
  - intros Hoffer.
    assert (He : e = SockReadyToConnect).
    { destruct e; try reflexivity;
        (rewrite no_offer_elsewhere in Hoffer by discriminate; discriminate). }
    split; [exact He|]. subst e.
    destruct (isHost m) eqn:Hhost; [reflexivity|].
    unfold step, on_ready_to_connect in Hoffer. rewrite Hhost in Hoffer.
    destruct (socket m); simpl in Hoffer; discriminate.
  - intros Hhost. unfold step, on_ready_to_connect. rewrite Hhost.
    now destruct (socket m).
Qed.

(** No handler changes [isHost]. *)
Lemma isHost_step (env : rtcEnv) (m : manager) (e : cevent wire) :
  isHost (post (step env m e)) = isHost m.
Proof.
  destruct m as [sk pc dc room host cbs name n].
  destruct e;
    unfold step, initialize, sendMessage, syncPlayer, disconnect, on_connect,
      on_disconnect, on_room_joined, on_peer_joined, on_peer_left, on_offer,
      on_answer, on_ice_candidate, on_ready_to_connect, pc_onicecandidate,
      pc_onconnectionstatechange, pc_ondatachannel, dc_onopen, dc_onclose,
      dc_onmessage, channel_open, done, set_dataChannel, set_peersCount;
    cbn [socket peerConnection dataChannel roomId isHost callbacks username
         peersCount post trace raised];
    try (destruct state);
    repeat match goal with
           | |- context [if ?b then _ else _] => destruct b
           | |- context [match ?x with Some _ => _ | None => _ end] => destruct x
           | |- context [match ?x with RsClosed => _ | _ => _ end] => destruct x
           | |- context [match ?x with JNull => _ | _ => _ end] => destruct x
           end;
    reflexivity.
Qed.

(** Over a whole session, a non-host neither creates nor sends an offer. *)
Lemma guest_never_offers (es : list (rtcEnv * cevent wire)) : forall m,
  isHost m = false -> existsb offer_action (snd (run m es)) = false.
Proof.
  induction es as [|[env e] es IH]; intros m Hguest; simpl; [reflexivity|].
  specialize (IH (post (step env m e))).
  rewrite isHost_step in IH. specialize (IH Hguest).
  destruct (run (post (step env m e)) es) as [m1 t]. simpl in *.
  rewrite existsb_app, IH, orb_false_r.
  destruct (existsb offer_action (trace (step env m e))) eqn:Hoffer; [|reflexivity].
  assert (e = SockReadyToConnect) as ->.
  { destruct e; try reflexivity;
      (rewrite no_offer_elsewhere in Hoffer by discriminate; discriminate). }
  unfold step, on_ready_to_connect in Hoffer. rewrite Hguest in Hoffer.
  destruct (socket m); simpl in Hoffer; discriminate.
Qed.

End ClientProperties.

(** The host receives ready-to-connect: it creates the offer, sets it as
    local description and emits it. *)
Lemma C6_offer_only_on_ready_to_connect_witness :
  Client.trace (Client.step (codec := structural) rtc_ok host_open Client.SockReadyToConnect)
    = [Client.PcCreateOffer;
       Client.PcSetLocalDescription (Some (JStr "sdp-offer"));
       Client.SocketEmit "offer" (JObj [("roomId", JStr "abc123"); ("offer", JStr "sdp-offer")])] /\
  Client.isHost host_open = true.
Proof.
  split; [reflexivity|].
  apply (C6_offer_only_on_ready_to_connect (codec := structural) rtc_ok host_open
           Client.SockReadyToConnect).
  reflexivity.
Defined.

(** ** The data-channel protocol *)

Section DataChannel.
Import Client.
Context {wire : Type} {codec : JsonCodec wire}.

Ltac split_conds :=
  repeat match goal with
         | |- context [if ?b then _ else _] => destruct b
         | H : context [if ?b then _ else _] |- _ => destruct b
         | H : context [match ?x with Some _ => _ | None => _ end] |- _ => destruct x
         end.

(** Only [sendMessage] and [syncPlayer] write to the data channel. *)
Lemma send_only_by_methods (env : rtcEnv) (m : manager) (e : cevent wire) (w : wire) :
  In (DcSend w) (trace (step env m e)) ->
  (exists text now, e = CallSendMessage text now /\
                    w = JSON_stringify (chat_envelope text (username m) now)) \/
  (exists act data, e = CallSyncPlayer act data /\
                    w = JSON_stringify (sync_envelope act data)).
Proof.
  destruct m as [sk pc dc room host cbs name n].
  destruct e;
    unfold step, initialize, sendMessage, syncPlayer, disconnect, on_connect,
      on_disconnect, on_room_joined, on_peer_joined, on_peer_left, on_offer,
      on_answer, on_ice_candidate, on_ready_to_connect, pc_onicecandidate,
      pc_onconnectionstatechange, pc_ondatachannel, dc_onopen, dc_onclose,
      dc_onmessage, done, cb, emit, set_dataChannel, set_peersCount;
    cbn [socket peerConnection dataChannel roomId isHost callbacks username
         peersCount post trace raised];
    intros Hin.
  all: try (destruct state).
  all: split_conds; cbn in Hin;
    repeat match goal with
           | H : _ \/ _ |- _ => destruct H
           | H : False |- _ => destruct H
           | H : _ = DcSend _ |- _ => first [discriminate H | inversion H; clear H; subst]
           end.
  all: try (left; eauto; fail); try (right; eauto; fail).
Qed.

(** [{ action, ...data }]: a key of [data] keeps the value [data] gives
    it, and [action] is the argument unless [data] has that key. *)
Lemma get_spread (l : list (string * json)) : forall (base : list (string * json)) k,
  JsMap.get k (fold_left (fun o kv => JsMap.set (fst kv) (snd kv) o) l base)
    = match JsMap.get k (rev l) with
      | Some v => Some v
      | None => JsMap.get k base
      end.
Proof.
  induction l as [|[k0 v0] l IH]; intros base k; simpl; [reflexivity|].
  rewrite IH, JsMapFacts.get_app. destruct (JsMap.get k (rev l)); [reflexivity|].
  simpl. destruct (String.eqb k0 k) eqn:E.
  - apply String.eqb_eq in E; subst. apply JsMapFacts.get_set_eq.
  - apply String.eqb_neq in E. now apply JsMapFacts.get_set_ne.
Qed.

Lemma get_rev_nodup (l : list (string * json)) k :
  NoDup (JsMap.keys l) -> JsMap.get k (rev l) = JsMap.get k l.
Proof.
  induction l as [|[k0 v0] l IH]; simpl; intros Hnd; [reflexivity|].
  inversion Hnd as [|? ? Hni Hnd']; subst.
  rewrite JsMapFacts.get_app, IH by assumption. simpl.
  destruct (String.eqb k0 k) eqn:E.
  - apply String.eqb_eq in E; subst. now rewrite JsMapFacts.get_notin.
  - now destruct (JsMap.get k l).
Qed.

(** C7, as the code has it. The claim (a discriminant named kind, the
    player-sync fields at top level) fails, as the closed example after
    this theorem shows. Whatever is sent on the data channel, by any code of the class, is the
    serialization of an object whose discriminant field is named type:
    either type "chat" with, at top level, text, sender (the sender's
    username) and timestamp (the ISO string of the clock at the call); or
    type "player-sync" with one more field, data, an object that holds
    action and the fields of the caller's data (a field action of the
    caller's data replaces the action argument). *)
Theorem C7_envelope_shape
  (env : rtcEnv) (m : manager) (e : cevent wire) (w : wire) :
  In (DcSend w) (trace (step env m e)) ->
  exists envelope, w = JSON_stringify envelope /\
    field envelope "kind" = None /\
    ((exists text now,
        e = CallSendMessage text now /\
        field envelope "type" = Some (JStr "chat") /\
        field envelope "text" = Some (JStr text) /\
        field envelope "sender" = Some (JStr (username m)) /\
        field envelope "timestamp" = Some (JStr now)) \/
     (exists act data d,
        e = CallSyncPlayer act data /\
        field envelope "type" = Some (JStr "player-sync") /\
        field envelope "action" = None /\
        field envelope "data" = Some (JObj d) /\
        let fs := match data with Some fs => fs | None => [] end in
        (JsMap.get "action" fs = None -> JsMap.get "action" d = Some (JStr act)) /\
        (forall k v, NoDup (JsMap.keys fs) ->
                     JsMap.get k fs = Some v -> JsMap.get k d = Some v))).
Proof.
  intros Hin. apply send_only_by_methods in Hin.
  destruct Hin as [(text & now & -> & ->) | (act & data & -> & ->)].
  - exists (chat_envelope text (username m) now).
    split; [reflexivity|]. split; [reflexivity|]. left.
    exists text, now. repeat split.
  - exists (sync_envelope act data).
    split; [reflexivity|]. split; [reflexivity|]. right.
    exists act, data, (spread_action act data).
    split; [reflexivity|]. split; [reflexivity|]. split; [reflexivity|].
    split; [reflexivity|]. cbv zeta. unfold spread_action. split.
    + intros Hnone. rewrite get_spread.
      destruct (JsMap.get "action" (rev _)) as [v|] eqn:G; [|reflexivity].
      apply JsMapFacts.get_in in G. apply in_rev in G.
      assert (In "action" (JsMap.keys (match data with Some fs => fs | None => [] end))).
      { change "action" with (fst ("action", v)). now apply in_map. }
      now apply JsMapFacts.get_none_notin in Hnone.
    + intros k v Hnd Hget. rewrite get_spread, get_rev_nodup by exact Hnd.
      now rewrite Hget.
Qed.

End DataChannel.

(** The host sends "hi": the frame is an object with type "chat". *)
Lemma C7_envelope_shape_witness :
  exists envelope,
    In (Client.DcSend envelope)
       (Client.trace (Client.step (codec := structural) rtc_ok host_open
                        (Client.CallSendMessage "hi" "2025-01-01T00:00:00.000Z"))) /\
    Client.field envelope "kind" = None.
Proof.
  destruct (C7_envelope_shape (codec := structural) rtc_ok host_open
              (Client.CallSendMessage "hi" "2025-01-01T00:00:00.000Z")
              (Client.chat_envelope "hi" "User7" "2025-01-01T00:00:00.000Z"))
    as (envelope & Hw & Hkind & _).
  - left. reflexivity.
  - exists envelope. simpl in Hw. subst envelope. split; [now left | exact Hkind].
Defined.

(** C7, as stated, fails: what [sendMessage] and [syncPlayer] put on the
    open channel has no field named kind, and the player-sync frame has
    action under data, not at top level; neither frame is an envelope in
    the specification's sense. *)
Lemma C7_no_kind_field :
  Client.trace (Client.sendMessage (codec := structural)
                  "hi" "2025-01-01T00:00:00.000Z" rtc_ok host_open)
    = [Client.DcSend
         (JObj [("type", JStr "chat"); ("text", JStr "hi"); ("sender", JStr "User7");
                ("timestamp", JStr "2025-01-01T00:00:00.000Z")])] /\
  spec_envelope
    (JObj [("type", JStr "chat"); ("text", JStr "hi"); ("sender", JStr "User7");
           ("timestamp", JStr "2025-01-01T00:00:00.000Z")]) = false /\
  Client.trace (Client.syncPlayer (codec := structural)
                  "play" (Some [("currentTime", JNum 3); ("videoId", JStr "dQw4w9WgXcQ")])
                  rtc_ok host_open)
    = [Client.DcSend
         (JObj [("type", JStr "player-sync");
                ("data", JObj [("action", JStr "play"); ("currentTime", JNum 3);
                               ("videoId", JStr "dQw4w9WgXcQ")])])] /\
  spec_envelope
    (JObj [("type", JStr "player-sync");
           ("data", JObj [("action", JStr "play"); ("currentTime", JNum 3);
                          ("videoId", JStr "dQw4w9WgXcQ")])]) = false.
Proof. repeat split. Qed.

Section RoundTrip.
Import Client.
Context {wire : Type} {codec : JsonCodec wire}.

(** [JSON.parse] reads back what [JSON.stringify] wrote. *)
Hypothesis JSON_round_trip : forall v : json, JSON_parse (JSON_stringify v) = Some v.

(** C8. For every text and every sender name: the frame that [sendMessage]
    writes on an open channel, handed to the message handler of a peer
    that has its channel and its callbacks, makes that handler call
    onMessage once, with the same text and the same sender (and the date
    built from the sender's timestamp). *)
Theorem C8_chat_round_trip
  (sender receiver : manager) (text now : string) (env env' : rtcEnv) :
  dataChannel sender = Some RsOpen ->
  dataChannel receiver <> None ->
  callbacks receiver = true ->
  exists w,
    trace (step env sender (CallSendMessage text now)) = [DcSend w] /\
    trace (step env' receiver (DcMessage w))
      = [OnMessage (Some (JStr text)) (Some (JStr (username sender)))
                   (NewDate (Some (JStr now)))].
Proof.
  intros Hopen Hdc Hcb.
  exists (JSON_stringify (chat_envelope text (username sender) now)). split.
  - unfold step, sendMessage, channel_open. now rewrite Hopen.
  - unfold step. destruct (dataChannel receiver); [|congruence].
    unfold dc_onmessage. rewrite JSON_round_trip.
    unfold chat_envelope, cb. cbn. now rewrite Hcb.
Qed.

End RoundTrip.

(** The host says "hi" to the guest. *)
Lemma C8_chat_round_trip_witness :
  exists w,
    Client.trace (Client.step (codec := structural) rtc_ok host_open
                    (Client.CallSendMessage "hi" "2025-01-01T00:00:00.000Z"))
      = [Client.DcSend w] /\
    Client.trace (Client.step (codec := structural) rtc_ok guest_open (Client.DcMessage w))
      = [Client.OnMessage (Some (JStr "hi")) (Some (JStr "User7"))
           (Client.NewDate (Some (JStr "2025-01-01T00:00:00.000Z")))].
Proof.
  apply (C8_chat_round_trip (codec := structural) (fun v => eq_refl)
           host_open guest_open "hi" "2025-01-01T00:00:00.000Z" rtc_ok rtc_ok).
  - reflexivity.
  - simpl. discriminate.
  - reflexivity.
Defined.

Section SendGuard.
Import Client.
Context {wire : Type} {codec : JsonCodec wire}.

(** C9. [sendMessage] and [syncPlayer] write a frame on the data channel
    exactly when the channel exists and is open, and then write one frame,
    the serialized envelope; in every other case the call returns without
    any call on any object (nothing sent, nothing kept for later), without
    an exception, and with the fields of the manager unchanged. *)
Theorem C9_send_only_when_open (env : rtcEnv) (m : manager) :
  (forall text now,
     ((exists w, In (DcSend w) (trace (sendMessage text now env m)))
        <-> dataChannel m = Some RsOpen) /\
     (dataChannel m = Some RsOpen ->
        trace (sendMessage text now env m)
          = [DcSend (JSON_stringify (chat_envelope text (username m) now))] /\
        post (sendMessage text now env m) = m) /\
     (dataChannel m <> Some RsOpen ->
        sendMessage text now env m = {| post := m; trace := []; raised := false |})) /\
  (forall act data,
     ((exists w, In (DcSend w) (trace (syncPlayer act data env m)))
        <-> dataChannel m = Some RsOpen) /\
     (dataChannel m = Some RsOpen ->
        trace (syncPlayer act data env m)
          = [DcSend (JSON_stringify (sync_envelope act data))] /\
        post (syncPlayer act data env m) = m) /\
     (dataChannel m <> Some RsOpen ->
        syncPlayer act data env m = {| post := m; trace := []; raised := false |})).
Proof.
  split; intros; unfold sendMessage, syncPlayer, channel_open, done;
    (destruct (dataChannel m) as [[| | |]|] eqn:Hdc; cbn [trace post];
     (split; [split; [intros [w Hin]; simpl in Hin; try tauto; try reflexivity
                     | intros Hopen; try discriminate; eexists; now left]
             | split; [intros Hopen; try discriminate; now split
                      | intros Hno; try reflexivity; congruence]])).
Qed.

End SendGuard.

(** The guest's channel is still connecting: [sendMessage] does nothing. *)
Lemma C9_send_only_when_open_witness :
  Client.sendMessage (codec := structural) "hi" "2025-01-01T00:00:00.000Z" rtc_ok
    (Client.set_dataChannel guest_open (Some Client.RsConnecting))
  = {| Client.post := Client.set_dataChannel guest_open (Some Client.RsConnecting);
       Client.trace := [];
       Client.raised := false |}.
Proof.
  apply (C9_send_only_when_open (codec := structural) rtc_ok
           (Client.set_dataChannel guest_open (Some Client.RsConnecting))).
  simpl. discriminate.
Defined.

(** * Further properties of the servers *)

Section ServerInvariants.
Import JsMap JsMapFacts.

(** X1. In the ES-module server, after every sequence of events started
    from the empty registry, every room of the registry has peersCount
    equal to the size of its participant map and at least one
    participant. *)
Theorem Esm_rooms_never_empty (es : list event) :
  rooms_ok (rooms (fst (Esm.run server_init es))).
Proof. apply Esm_run_ok. constructor. Qed.

(** X2. In the CommonJS server, after every sequence of events started
    from the empty registry, the peersCount stored in each room is the
    size of its participant map. *)
Theorem Cjs_counts_match_maps (es : list event) :
  counts_ok (rooms (fst (Cjs.run server_init es))).
Proof. apply Cjs_count_invariant. constructor. Qed.

Lemma size_set (k : string) (v : user) (m : JsMap.t user) :
  size (set k v m) = size m + (if has k m then 0 else 1).
Proof.
  unfold has. induction m as [|[k' v'] m IH]; simpl; [reflexivity|].
  destruct (String.eqb k' k); simpl; [lia|].
  rewrite IH. destruct (get k m); lia.
Qed.

Lemma created_room_users_of k (rs : JsMap.t roomInfo) :
  users (snd (Esm.getOrCreateRoom k rs)) = users_of k rs.
Proof. unfold users_of. apply created_room_users. Qed.

(** X3. A join-room (either server) counts the joining socket once: the
    count after the join is the number of participants the room had, plus
    one when the socket was not among them, and unchanged when it was (a
    repeated join overwrites the entry). The handler first tells that
    count to the joiner (room-joined) and then, with the stored username,
    to the rest of the room (peer-joined). *)
Theorem join_counts_socket_once
  (join : string -> joinData -> joinEnv -> server -> server * list emission)
  (Hjoin : join = Cjs.on_join_room \/ join = Esm.on_join_room)
  (s : string) (data : joinData) (env : joinEnv) (st : server) :
  exists room1,
    JsMap.get (jd_roomId data) (rooms (fst (join s data env st))) = Some room1 /\
    peersCount room1
      = JsMap.size (users_of (jd_roomId data) (rooms st))
        + (if JsMap.has s (users_of (jd_roomId data) (rooms st)) then 0 else 1) /\
    firstn 2 (snd (join s data env st))
      = [mkEmit s ToSender (RoomJoined (jd_roomId data) (peersCount room1) (jd_isHost data));
         mkEmit s (ToRoomExceptSender (jd_roomId data))
           (PeerJoined s (peersCount room1)
              (username_or_default (jd_username data) (env_random env)))].
Proof.
  assert (join = Esm.on_join_room) as -> by (destruct Hjoin as [->| ->]; reflexivity).
  pose proof (created_room_users_of (jd_roomId data) (rooms st)) as Hus.
  unfold Esm.on_join_room.
  destruct (Esm.getOrCreateRoom (jd_roomId data) (rooms st)) as [rs1 room].
  cbn [snd] in Hus. cbv zeta. eexists. cbn [fst snd rooms].
  split; [apply get_set_eq|]. cbn [peersCount users].
  split; [rewrite size_set, Hus; reflexivity|].
  rewrite get_set_eq. cbn [username].
  destruct (Nat.eqb _ 2); [|reflexivity].
  destruct (truthy _); [|reflexivity].
  now destruct (find_host _).
Qed.

(** The guest "b" joins the room of the host "a": the count is 2. *)
Lemma join_counts_socket_once_witness :
  exists room1,
    JsMap.get "abc123" (rooms (fst (Cjs.on_join_room "b" bob env0 st_alice))) = Some room1 /\
    peersCount room1 = 2.
Proof.
  destruct (join_counts_socket_once Cjs.on_join_room (or_introl eq_refl)
              "b" bob env0 st_alice) as (room1 & Hget & Hcount & _).
  exists room1. split; [exact Hget | exact Hcount].
Defined.

Lemma default_username_nonempty n : default_username n <> EmptyString.
Proof. unfold default_username. simpl. discriminate. Qed.

Lemma username_or_default_nonempty u n : username_or_default u n <> EmptyString.
Proof.
  destruct u as [[|c name]|]; simpl;
    [apply default_username_nonempty | discriminate | apply default_username_nonempty].
Qed.

Lemma names_ok_get k room (rs : JsMap.t roomInfo) :
  names_ok rs -> get k rs = Some room ->
  Forall (fun ku => username (snd ku) <> EmptyString) (users room).
Proof.
  intros Hok Hget. apply get_in in Hget.
  unfold names_ok in Hok. rewrite Forall_forall in Hok. exact (Hok _ Hget).
Qed.

Lemma names_ok_users_of k (rs : JsMap.t roomInfo) :
  names_ok rs -> Forall (fun ku => username (snd ku) <> EmptyString) (users_of k rs).
Proof.
  intros Hok. unfold users_of. destruct (get k rs) as [room|] eqn:G; [|constructor].
  now apply (names_ok_get k room rs).
Qed.

Lemma names_visit s acc entry :
  names_ok (fst acc) ->
  Forall (fun ku => username (snd ku) <> EmptyString) (users (snd entry)) ->
  names_ok (fst (Esm.disconnect_visit s acc entry)).
Proof.
  destruct acc as [rs out], entry as [roomId room]. simpl. intros Hok Hroom.
  destruct (has s (users room)); [|exact Hok].
  assert (Hset : names_ok (set roomId {| users := delete s (users room);
                                          peersCount := size (delete s (users room)) |} rs)).
  { apply Forall_set; [exact Hok|]. simpl. now apply Forall_delete. }
  destruct (Nat.eqb _ 0); simpl; [now apply Forall_delete | exact Hset].
Qed.

Lemma names_fold_visit s entries : forall acc,
  names_ok (fst acc) -> names_ok entries ->
  names_ok (fst (fold_left (Esm.disconnect_visit s) entries acc)).
Proof.
  induction entries as [|e entries IH]; intros acc Hok Hes; simpl; [exact Hok|].
  inversion Hes; subst. apply IH; [now apply names_visit | assumption].
Qed.

Lemma names_disconnect s st :
  names_ok (rooms st) -> names_ok (rooms (fst (Esm.on_disconnect s st))).
Proof.
  intros Hok. unfold Esm.on_disconnect.
  pose proof (names_fold_visit s (entries (rooms st)) (rooms st, []) Hok Hok) as H.
  destruct (fold_left _ _ _) as [rs out]. exact H.
Qed.

Lemma names_join s data env st :
  names_ok (rooms st) -> names_ok (rooms (fst (Esm.on_join_room s data env st))).
Proof.
  intros Hok. destruct (Esm_join_rooms s data env st) as [room1 [-> ->]].
  apply Forall_set; [exact Hok|]. cbv zeta. cbn [snd users].
  rewrite created_room_users_of.
  apply Forall_set; [now apply names_ok_users_of|].
  simpl. apply username_or_default_nonempty.
Qed.

Lemma names_Esm_step st e :
  names_ok (rooms st) -> names_ok (rooms (fst (Esm.step st e))).
Proof.
  intros Hok. destruct e; unfold Esm.step; try (simpl; exact Hok).
  - now apply names_join.
  - unfold Esm.on_leave_room, Esm.getRoom.
    destruct (get roomId (rooms st)) as [room|] eqn:G; [|exact Hok].
    destruct (has s (users room)); [|exact Hok].
    cbv zeta.
    assert (Hset : names_ok (set roomId {| users := delete s (users room);
                                            peersCount := size (delete s (users room)) |}
                                 (rooms st))).
    { apply Forall_set; [exact Hok|]. simpl. apply Forall_delete.
      now apply (names_ok_get roomId room (rooms st)). }
    destruct (Nat.eqb _ 0); simpl; [now apply Forall_delete | exact Hset].
  - now apply names_disconnect.
Qed.

Lemma names_Cjs_step st e :
  names_ok (rooms st) -> names_ok (rooms (fst (Cjs.step st e))).
Proof.
  intros Hok. destruct e; try exact (names_Esm_step st _ Hok).
  - exact (names_Esm_step st (Connection s) Hok).
  - exact (names_Esm_step st (JoinRoom s data env) Hok).
  - exact (names_Esm_step st (Offer s roomId offer) Hok).
  - exact (names_Esm_step st (Answer s roomId answer) Hok).
  - exact (names_Esm_step st (IceCandidate s roomId candidate) Hok).
  - unfold Cjs.step, Cjs.on_leave_room.
    pose proof (created_room_users_of roomId (rooms st)) as Hus.
    assert (H1 : names_ok (fst (Cjs.getRoomInfo roomId (rooms st)))).
    { unfold Cjs.getRoomInfo. simpl. destruct (negb _); [|exact Hok].
      apply Forall_set; [exact Hok | constructor]. }
    change (Esm.getOrCreateRoom roomId (rooms st))
      with (Cjs.getRoomInfo roomId (rooms st)) in Hus.
    destruct (Cjs.getRoomInfo roomId (rooms st)) as [rs1 room].
    cbn [fst snd] in *. cbv zeta.
    destruct (has s (users room)); cbn [fst rooms]; [|exact H1].
    apply Forall_set; [exact H1|]. simpl. apply Forall_delete.
    rewrite Hus. now apply names_ok_users_of.
  - exact (names_Esm_step st (Disconnect s) Hok).
Qed.

Lemma names_Cjs_run es : forall st,
  names_ok (rooms st) -> names_ok (rooms (fst (Cjs.run st es))).
Proof.
  induction es as [|e es IH]; intros st Hok; simpl; [exact Hok|].
  pose proof (names_Cjs_step st e Hok) as H1.
  destruct (Cjs.step st e) as [st1 out1]. simpl in H1.
  specialize (IH st1 H1). now destruct (Cjs.run st1 es).
Qed.

Lemma names_Esm_run es : forall st,
  names_ok (rooms st) -> names_ok (rooms (fst (Esm.run st es))).
Proof.
  induction es as [|e es IH]; intros st Hok; simpl; [exact Hok|].
  pose proof (names_Esm_step st e Hok) as H1.
  destruct (Esm.step st e) as [st1 out1]. simpl in H1.
  specialize (IH st1 H1). now destruct (Esm.run st1 es).
Qed.

(** X4. In both servers, after every sequence of events started from the
    empty registry, every participant stored in the registry has a
    non-empty username: a join-room without a username, or with the empty
    one, stores the generated default. *)
Theorem usernames_never_empty (es : list event) :
  names_ok (rooms (fst (Cjs.run server_init es))) /\
  names_ok (rooms (fst (Esm.run server_init es))).
Proof. split; [apply names_Cjs_run | apply names_Esm_run]; constructor. Qed.

End ServerInvariants.

Section LeavePresent.
Import JsMap JsMapFacts.

(** X5. ES-module server, leave-room of a socket that is in the named
    room: the socket is taken out of that room's participant map, the room
    is deleted when the socket was its only participant, every other room
    is as before, and exactly one peer-left is broadcast to the rest of
    the room, with the count after the removal and the username the socket
    had there. *)
Theorem Esm_leave_room_removes_participant
  (s roomId : string) (st : server) (room : roomInfo) :
  JsMap.get roomId (rooms st) = Some room ->
  JsMap.has s (users room) = true ->
  (forall r,
     JsMap.get r (rooms (fst (Esm.on_leave_room s roomId st)))
       = if String.eqb roomId r then without s room else JsMap.get r (rooms st)) /\
  in_room s roomId (rooms (fst (Esm.on_leave_room s roomId st))) = false /\
  snd (Esm.on_leave_room s roomId st) = [peer_left_of s (roomId, room)].
Proof.
  intros Hget Hhas.
  assert (Hlookup : forall r,
     get r (rooms (fst (Esm.on_leave_room s roomId st)))
       = if String.eqb roomId r then without s room else get r (rooms st)).
  { intros r. unfold Esm.on_leave_room, Esm.getRoom, without.
    rewrite Hget, Hhas. cbv zeta. cbn [peersCount].
    destruct (String.eqb roomId r) eqn:E.
    - apply String.eqb_eq in E; subst r.
      destruct (Nat.eqb _ 0); cbn [fst rooms];
        [apply get_delete_eq | apply get_set_eq].
    - apply String.eqb_neq in E.
      destruct (Nat.eqb _ 0); cbn [fst rooms];
        rewrite ?get_delete_ne by exact E; now apply get_set_ne. }
  split; [exact Hlookup|]. split.
  - unfold in_room. rewrite Hlookup, String.eqb_refl. unfold without.
    destruct (Nat.eqb _ 0); [reflexivity|]. simpl. apply has_delete.
  - unfold Esm.on_leave_room, Esm.getRoom, peer_left_of.
    rewrite Hget, Hhas. cbv zeta. cbn [peersCount fst snd].
    now destruct (Nat.eqb _ 0).
Qed.

(** The guest "b" of [st_two_rooms] leaves "R2", where it was alone. *)
Lemma Esm_leave_room_removes_participant_witness :
  JsMap.get "R2" (rooms (fst (Esm.on_leave_room "b" "R2" st_two_rooms))) = None /\
  snd (Esm.on_leave_room "b" "R2" st_two_rooms)
    = [mkEmit "b" (ToRoomExceptSender "R2") (PeerLeft "b" 0 "Bob")].
Proof.
  destruct (Esm_leave_room_removes_participant "b" "R2" st_two_rooms
              {| users := [("b", {| username := "Bob"; isHost := false; joinedAt := 0 |})];
                 peersCount := 1 |} eq_refl eq_refl) as (Hget & _ & Hout).
  split; [rewrite Hget; reflexivity | rewrite Hout; reflexivity].
Defined.

(** X6. CommonJS server, leave-room of a socket that is in the named
    room: the socket is taken out of that room's participant map and the
    count is set to the new size, but the room stays in the registry, also
    with no participant left; every other room is as before, and exactly
    one peer-left is broadcast to the rest of the room. *)
Theorem Cjs_leave_room_removes_participant
  (s roomId : string) (st : server) (room : roomInfo) :
  JsMap.get roomId (rooms st) = Some room ->
  JsMap.has s (users room) = true ->
  (forall r,
     JsMap.get r (rooms (fst (Cjs.on_leave_room s roomId st)))
       = if String.eqb roomId r
         then Some {| users := JsMap.delete s (users room);
                      peersCount := JsMap.size (JsMap.delete s (users room)) |}
         else JsMap.get r (rooms st)) /\
  in_room s roomId (rooms (fst (Cjs.on_leave_room s roomId st))) = false /\
  snd (Cjs.on_leave_room s roomId st) = [peer_left_of s (roomId, room)].
Proof.
  intros Hget Hhas.
  assert (Hroom : has roomId (rooms st) = true) by (unfold has; now rewrite Hget).
  assert (Hlookup : forall r,
     get r (rooms (fst (Cjs.on_leave_room s roomId st)))
       = if String.eqb roomId r
         then Some {| users := delete s (users room);
                      peersCount := size (delete s (users room)) |}
         else get r (rooms st)).
  { intros r. unfold Cjs.on_leave_room, Cjs.getRoomInfo.
    rewrite Hroom. cbn [negb]. cbv zeta. rewrite Hget, Hhas. cbn [fst rooms].
    destruct (String.eqb roomId r) eqn:E.
    - apply String.eqb_eq in E; subst r. apply get_set_eq.
    - apply String.eqb_neq in E. now apply get_set_ne. }
  split; [exact Hlookup|]. split.
  - unfold in_room. rewrite Hlookup, String.eqb_refl. simpl. apply has_delete.
  - unfold Cjs.on_leave_room, Cjs.getRoomInfo, peer_left_of.
    rewrite Hroom. cbn [negb]. cbv zeta. now rewrite Hget, Hhas.
Qed.

(** The guest "b" of [st_two_rooms] leaves "R2": the room stays, empty. *)
Lemma Cjs_leave_room_removes_participant_witness :
  JsMap.get "R2" (rooms (fst (Cjs.on_leave_room "b" "R2" st_two_rooms)))
    = Some {| users := []; peersCount := 0 |}.
Proof.
  destruct (Cjs_leave_room_removes_participant "b" "R2" st_two_rooms
              {| users := [("b", {| username := "Bob"; isHost := false; joinedAt := 0 |})];
                 peersCount := 1 |} eq_refl eq_refl) as (Hget & _ & _).
  rewrite Hget. reflexivity.
Defined.

End LeavePresent.

Section Health.
Import JsMap JsMapFacts.

Lemma fold_sum (f : string * roomInfo -> nat) (l : list (string * roomInfo)) : forall a,
  fold_left (fun sum kv => sum + f kv) l a = a + list_sum (map f l).
Proof.
  induction l as [|x l IH]; intros a; simpl; [lia|]. rewrite IH. lia.
Qed.

Lemma counts_total (rs : JsMap.t roomInfo) :
  counts_ok rs -> list_sum (map (fun kv => peersCount (snd kv)) rs) = total_size rs.
Proof.
  unfold counts_ok, total_size. induction 1 as [|kv l Hkv Hl IH]; simpl; [reflexivity|].
  now rewrite Hkv, IH.
Qed.

Lemma rooms_ok_counts (rs : JsMap.t roomInfo) : rooms_ok rs -> counts_ok rs.
Proof.
  unfold rooms_ok, counts_ok. apply Forall_impl. intros kv [H _]. exact H.
Qed.

Lemma rooms_ok_size_le (rs : JsMap.t roomInfo) :
  rooms_ok rs -> size rs <= total_size rs.
Proof.
  unfold rooms_ok, total_size, size.
  induction 1 as [|kv l [Hc Hne] Hl IH]; simpl; [lia|].
  unfold size in *. lia.
Qed.

(** X7. The health report of the ES-module server, after any sequence of
    events started from the empty registry: totalUsers is the number of
    entries of all participant maps together, and it is at least
    activeRooms, since every room counted has a participant. *)
Theorem Esm_health_counts (es : list event) (nowISO : string) :
  totalUsers (Esm.health nowISO (fst (Esm.run server_init es)))
    = total_size (rooms (fst (Esm.run server_init es))) /\
  activeRooms (Esm.health nowISO (fst (Esm.run server_init es)))
    <= totalUsers (Esm.health nowISO (fst (Esm.run server_init es))).
Proof.
  pose proof (Esm_registry_invariant es) as Hok.
  unfold Esm.health. cbn [totalUsers activeRooms].
  rewrite fold_sum, counts_total by now apply rooms_ok_counts.
  split; [reflexivity|]. simpl. now apply rooms_ok_size_le.
Qed.

(** X8. The health report of the CommonJS server, after any sequence of
    events started from the empty registry: totalUsers is the number of
    entries of all participant maps together. *)
Theorem Cjs_health_total (es : list event) (nowISO : string) :
  totalUsers (Cjs.health nowISO (fst (Cjs.run server_init es)))
    = total_size (rooms (fst (Cjs.run server_init es))).
Proof.
  unfold Cjs.health. cbn [totalUsers].
  rewrite fold_sum, counts_total; [reflexivity|].
  apply Cjs_count_invariant. constructor.
Qed.

End Health.

(** * The two servers compared *)

Section Simulation.
Import JsMap JsMapFacts.

Lemma users_of_same (c e : JsMap.t roomInfo) :
  same_nonempty c e -> forall r, users_of r e = users_of r c.
Proof.
  intros H r. unfold users_of. rewrite (H r).
  destruct (get r c) as [room|]; simpl; [|reflexivity].
  destruct (Nat.eqb (size (users room)) 0) eqn:E; [|reflexivity].
  apply Nat.eqb_eq in E. now destruct (users room).
Qed.

Lemma join_out_by_users s data env c e :
  users (snd (Esm.getOrCreateRoom (jd_roomId data) (rooms c)))
    = users (snd (Esm.getOrCreateRoom (jd_roomId data) (rooms e))) ->
  snd (Esm.on_join_room s data env c) = snd (Esm.on_join_room s data env e).
Proof.
  unfold Esm.on_join_room.
  destruct (Esm.getOrCreateRoom (jd_roomId data) (rooms c)) as [rs1 room].
  destruct (Esm.getOrCreateRoom (jd_roomId data) (rooms e)) as [rs1' room'].
  cbn [snd]. intros H. cbv zeta. cbn [snd users peersCount]. now rewrite H.
Qed.

Lemma sim_join s data env c e :
  same_nonempty (rooms c) (rooms e) ->
  same_nonempty (rooms (fst (Cjs.on_join_room s data env c)))
                (rooms (fst (Esm.on_join_room s data env e))) /\
  snd (Cjs.on_join_room s data env c) = snd (Esm.on_join_room s data env e).
Proof.
  intros H. rewrite join_room_same.
  pose proof (users_of_same _ _ H (jd_roomId data)) as Hus.
  rewrite <- !created_room_users_of in Hus.
  split; [|now apply join_out_by_users].
  destruct (Esm_join_rooms s data env c) as [rc [-> ->]].
  destruct (Esm_join_rooms s data env e) as [re [-> ->]].
  cbv zeta. rewrite Hus. intros r.
  destruct (String.eqb (jd_roomId data) r) eqn:E.
  - apply String.eqb_eq in E; subst r. rewrite !get_set_eq. simpl.
    destruct (Nat.eqb _ 0) eqn:Z; [|reflexivity].
    apply Nat.eqb_eq in Z. now apply size_set_pos in Z.
  - apply String.eqb_neq in E. rewrite !get_set_ne by exact E. apply H.
Qed.

Lemma sim_leave s roomId c e :
  same_nonempty (rooms c) (rooms e) ->
  same_nonempty (rooms (fst (Cjs.on_leave_room s roomId c)))
                (rooms (fst (Esm.on_leave_room s roomId e))) /\
  snd (Cjs.on_leave_room s roomId c) = snd (Esm.on_leave_room s roomId e).
Proof.
  intros H. pose proof (H roomId) as Hr.
  destruct (get roomId (rooms c)) as [room|] eqn:Gc.
  - assert (Hroom : has roomId (rooms c) = true) by (unfold has; now rewrite Gc).
    unfold Cjs.on_leave_room, Cjs.getRoomInfo, Esm.on_leave_room, Esm.getRoom.
    rewrite Hroom. cbn [negb]. cbv zeta. rewrite Gc. simpl in Hr.
    destruct (Nat.eqb (size (users room)) 0) eqn:Z.
    + (* the room is there, empty, in the one server only *)
      rewrite Hr. apply Nat.eqb_eq in Z.
      destruct (users room) eqn:U; [|discriminate].
      cbn [has get fst snd rooms]. split; [exact H | reflexivity].
    + rewrite Hr. destruct (has s (users room)); cbn [fst snd rooms];
        [|split; [exact H | reflexivity]].
      cbn [peersCount]. split.
      * intros r. destruct (String.eqb roomId r) eqn:E.
        -- apply String.eqb_eq in E; subst r. rewrite get_set_eq. simpl.
           destruct (Nat.eqb (size (delete s (users room))) 0); cbn [fst rooms];
             [apply get_delete_eq | apply get_set_eq].
        -- apply String.eqb_neq in E. rewrite get_set_ne by exact E.
           destruct (Nat.eqb (size (delete s (users room))) 0); cbn [fst rooms];
             rewrite ?get_delete_ne by exact E; rewrite get_set_ne by exact E; apply H.
      * now destruct (Nat.eqb (size (delete s (users room))) 0).
  - assert (Hroom : has roomId (rooms c) = false) by (unfold has; now rewrite Gc).
    unfold Cjs.on_leave_room, Cjs.getRoomInfo, Esm.on_leave_room, Esm.getRoom.
    rewrite Hroom. cbn [negb]. cbv zeta. rewrite get_set_eq. simpl in Hr. rewrite Hr.
    unfold empty. cbn [users has get fst snd rooms]. split; [|reflexivity].
    intros r. destruct (String.eqb roomId r) eqn:E.
    + apply String.eqb_eq in E; subst r. now rewrite get_set_eq, Hr.
    + apply String.eqb_neq in E. rewrite get_set_ne by exact E. apply H.
Qed.

Lemma nonempty_without s room : nonempty_room (without s room) = without s room.
Proof.
  unfold without. destruct (Nat.eqb (size (delete s (users room))) 0) eqn:Z; [reflexivity|].
  simpl. now rewrite Z.
Qed.

Lemma sim_disconnect s c e :
  NoDup (keys (rooms c)) -> NoDup (keys (rooms e)) ->
  same_nonempty (rooms c) (rooms e) ->
  same_nonempty (rooms (fst (Cjs.on_disconnect s c)))
                (rooms (fst (Esm.on_disconnect s e))).
Proof.
  intros Hc He H. rewrite disconnect_same.
  rewrite (Esm_disconnect_lists s c Hc), (Esm_disconnect_lists s e He).
  cbn [fst rooms]. intros r.
  rewrite (get_remains s (rooms c) r Hc), (get_remains s (rooms e) r He), (H r).
  destruct (get r (rooms c)) as [room|]; [|reflexivity]. simpl.
  destruct (Nat.eqb (size (users room)) 0) eqn:Z.
  - apply Nat.eqb_eq in Z. destruct (users room) eqn:U; [|discriminate].
    cbn [has get]. simpl. now rewrite U.
  - destruct (has s (users room)); [now rewrite nonempty_without|].
    simpl. now rewrite Z.
Qed.

Lemma sim_step c e ev :
  same_nonempty (rooms c) (rooms e) ->
  NoDup (keys (rooms c)) -> NoDup (keys (rooms e)) ->
  same_nonempty (rooms (fst (Cjs.step c ev))) (rooms (fst (Esm.step e ev))) /\
  (is_disconnect ev = false -> snd (Cjs.step c ev) = snd (Esm.step e ev)).
Proof.
  intros H Hc He. destruct ev; unfold Cjs.step, Esm.step.
  - split; [exact H | reflexivity].
  - destruct (sim_join s data env c e H) as [H1 H2]. now split.
  - split; [exact H | reflexivity].
  - split; [exact H | reflexivity].
  - split; [exact H | reflexivity].
  - destruct (sim_leave s roomId c e H) as [H1 H2]. now split.
  - split; [|discriminate]. now apply sim_disconnect.
Qed.

Lemma sim_run es : forall c e,
  same_nonempty (rooms c) (rooms e) ->
  NoDup (keys (rooms c)) -> NoDup (keys (rooms e)) ->
  same_nonempty (rooms (fst (Cjs.run c es))) (rooms (fst (Esm.run e es))) /\
  (forallb (fun ev => negb (is_disconnect ev)) es = true ->
   snd (Cjs.run c es) = snd (Esm.run e es)).
Proof.
  induction es as [|ev es IH]; intros c e H Hc He; simpl.
  - split; [exact H | reflexivity].
  - destruct (sim_step c e ev H Hc He) as [H1 Hout1].
    pose proof (Cjs_step_nodup c ev Hc) as Hc1.
    pose proof (Esm_step_nodup e ev He) as He1.
    destruct (Cjs.step c ev) as [c1 oc1]. destruct (Esm.step e ev) as [e1 oe1].
    cbn [fst snd] in *.
    destruct (IH c1 e1 H1 Hc1 He1) as [H2 Hout2].
    destruct (Cjs.run c1 es) as [c2 oc2]. destruct (Esm.run e1 es) as [e2 oe2].
    cbn [fst snd] in *. split; [exact H2|].
    intros Hno. apply andb_prop in Hno. destruct Hno as [Hev Hes].
    apply negb_true_iff in Hev. now rewrite (Hout1 Hev), (Hout2 Hes).
Qed.

(** X9. On every sequence of events, started from the empty registry, the
    two servers hold the same rooms with the same participant maps and
    counts, except that the CommonJS server may also hold rooms with no
    participant: looked up by room id, the ES-module registry is the
    CommonJS registry without its empty rooms. On a sequence with no
    disconnect the two servers also emit the same messages, addressed the
    same way, in the same order. *)
Theorem servers_agree_on_nonempty_rooms (es : list event) :
  same_nonempty (rooms (fst (Cjs.run server_init es)))
                (rooms (fst (Esm.run server_init es))) /\
  (forallb (fun ev => negb (is_disconnect ev)) es = true ->
   snd (Cjs.run server_init es) = snd (Esm.run server_init es)).
Proof.
  apply sim_run; [intros r; reflexivity | constructor | constructor].
Qed.

(** Socket "a" joins room "r" and leaves it: same messages, and room "r"
    of the CommonJS server is empty. *)
Lemma servers_agree_on_nonempty_rooms_witness :
  snd (Cjs.run server_init join_then_leave) = snd (Esm.run server_init join_then_leave) /\
  JsMap.get "r" (rooms (fst (Esm.run server_init join_then_leave)))
    = nonempty_room (JsMap.get "r" (rooms (fst (Cjs.run server_init join_then_leave)))).
Proof.
  destruct (servers_agree_on_nonempty_rooms join_then_leave) as [Hsame Hout].
  split; [apply Hout; reflexivity | apply Hsame].
Defined.

Lemma relay_step_state st ev :
  is_relay ev = true ->
  fst (Cjs.step st ev) = st /\ fst (Esm.step st ev) = st /\
  bookkeeping (snd (Cjs.step st ev)) = [] /\ bookkeeping (snd (Esm.step st ev)) = [].
Proof. destruct ev; try discriminate; intros _; repeat split. Qed.

Lemma visit_bookkeeping s acc entry :
  bookkeeping (snd acc) = snd acc ->
  bookkeeping (snd (Esm.disconnect_visit s acc entry))
    = snd (Esm.disconnect_visit s acc entry).
Proof.
  destruct acc as [rs out], entry as [roomId room]. cbn [snd]. intros Hout.
  unfold Esm.disconnect_visit. destruct (has s (users room)); [|exact Hout].
  cbv zeta. destruct (Nat.eqb _ 0); cbn [snd];
    unfold bookkeeping in *; rewrite filter_app, Hout; reflexivity.
Qed.

Lemma fold_visit_bookkeeping s entries : forall acc,
  bookkeeping (snd acc) = snd acc ->
  bookkeeping (snd (fold_left (Esm.disconnect_visit s) entries acc))
    = snd (fold_left (Esm.disconnect_visit s) entries acc).
Proof.
  induction entries as [|e entries IH]; intros acc Hout; simpl; [exact Hout|].
  apply IH. now apply visit_bookkeeping.
Qed.

Lemma Esm_step_bookkeeping st ev :
  is_relay ev = false -> bookkeeping (snd (Esm.step st ev)) = snd (Esm.step st ev).
Proof.
  destruct ev; try discriminate; intros _; unfold Esm.step.
  - reflexivity.
  - unfold Esm.on_join_room.
    destruct (Esm.getOrCreateRoom (jd_roomId data) (rooms st)) as [rs1 room].
    cbv zeta. cbn [snd].
    destruct (Nat.eqb _ 2); [|reflexivity].
    destruct (truthy _); [|reflexivity].
    now destruct (find_host _).
  - unfold Esm.on_leave_room, Esm.getRoom.
    destruct (get roomId (rooms st)) as [room|]; [|reflexivity].
    destruct (has s (users room)); [|reflexivity].
    cbv zeta. now destruct (Nat.eqb _ 0).
  - unfold Esm.on_disconnect. cbn [rooms sockets].
    pose proof (fold_visit_bookkeeping s (entries (rooms st)) (rooms st, []) eq_refl) as H.
    destruct (fold_left _ _ _) as [rs out]. exact H.
Qed.

Lemma Cjs_step_bookkeeping st ev :
  is_relay ev = false -> bookkeeping (snd (Cjs.step st ev)) = snd (Cjs.step st ev).
Proof.
  intros Hev. destruct ev; try discriminate.
  - exact (Esm_step_bookkeeping st (Connection s) eq_refl).
  - exact (Esm_step_bookkeeping st (JoinRoom s data env) eq_refl).
  - unfold Cjs.step, Cjs.on_leave_room.
    destruct (Cjs.getRoomInfo roomId (rooms st)) as [rs1 room].
    now destruct (has s (users room)).
  - exact (Esm_step_bookkeeping st (Disconnect s) eq_refl).
Qed.

Lemma Cjs_relay_independent es : forall st,
  fst (Cjs.run st es) = fst (Cjs.run st (filter (fun ev => negb (is_relay ev)) es)) /\
  bookkeeping (snd (Cjs.run st es))
    = snd (Cjs.run st (filter (fun ev => negb (is_relay ev)) es)).
Proof.
  induction es as [|ev es IH]; intros st; [split; reflexivity|].
  cbn [filter]. destruct (is_relay ev) eqn:R; cbn [negb].
  - destruct (relay_step_state st ev R) as (Hc & _ & Hb & _).
    cbn [Cjs.run]. destruct (Cjs.step st ev) as [c1 oc1]. cbn [fst snd] in Hc, Hb. subst c1.
    destruct (IH st) as [IHs IHo]. destruct (Cjs.run st es) as [c2 oc2].
    cbn [fst snd] in *. split; [exact IHs|].
    unfold bookkeeping in *. now rewrite filter_app, Hb.
  - pose proof (Cjs_step_bookkeeping st ev R) as Hb.
    cbn [Cjs.run]. destruct (Cjs.step st ev) as [c1 oc1]. cbn [snd] in Hb.
    destruct (IH c1) as [IHs IHo].
    destruct (Cjs.run c1 es) as [c2 oc2], (Cjs.run c1 (filter _ es)) as [c3 oc3].
    cbn [fst snd] in *. split; [exact IHs|].
    unfold bookkeeping in *. now rewrite filter_app, Hb, IHo.
Qed.

Lemma Esm_relay_independent es : forall st,
  fst (Esm.run st es) = fst (Esm.run st (filter (fun ev => negb (is_relay ev)) es)) /\
  bookkeeping (snd (Esm.run st es))
    = snd (Esm.run st (filter (fun ev => negb (is_relay ev)) es)).
Proof.
  induction es as [|ev es IH]; intros st; [split; reflexivity|].
  cbn [filter]. destruct (is_relay ev) eqn:R; cbn [negb].
  - destruct (relay_step_state st ev R) as (_ & He & _ & Hb).
    cbn [Esm.run]. destruct (Esm.step st ev) as [e1 oe1]. cbn [fst snd] in He, Hb. subst e1.
    destruct (IH st) as [IHs IHo]. destruct (Esm.run st es) as [e2 oe2].
    cbn [fst snd] in *. split; [exact IHs|].
    unfold bookkeeping in *. now rewrite filter_app, Hb.
  - pose proof (Esm_step_bookkeeping st ev R) as Hb.
    cbn [Esm.run]. destruct (Esm.step st ev) as [e1 oe1]. cbn [snd] in Hb.
    destruct (IH e1) as [IHs IHo].
    destruct (Esm.run e1 es) as [e2 oe2], (Esm.run e1 (filter _ es)) as [e3 oe3].
    cbn [fst snd] in *. split; [exact IHs|].
    unfold bookkeeping in *. now rewrite filter_app, Hb, IHo.
Qed.

(** X10. Relaying and room bookkeeping are independent, in both servers.
    Leaving the relay events (offer, answer, ice-candidate) out of any
    sequence of events changes neither the final registry and membership
    nor any of the other messages: what the shortened sequence emits is
    what the full sequence emits apart from the relayed offers, answers
    and candidates. *)
Theorem relay_independent_of_bookkeeping (es : list event) (st : server) :
  (fst (Cjs.run st es) = fst (Cjs.run st (filter (fun ev => negb (is_relay ev)) es)) /\
   bookkeeping (snd (Cjs.run st es))
     = snd (Cjs.run st (filter (fun ev => negb (is_relay ev)) es))) /\
  (fst (Esm.run st es) = fst (Esm.run st (filter (fun ev => negb (is_relay ev)) es)) /\
   bookkeeping (snd (Esm.run st es))
     = snd (Esm.run st (filter (fun ev => negb (is_relay ev)) es))).
Proof. split; [apply Cjs_relay_independent | apply Esm_relay_independent]. Qed.

End Simulation.

(** * Further properties of the client *)

Section Negotiation.
Import Client.
Context {wire : Type} {codec : JsonCodec wire}.

(** X11. The offer handler of a manager that holds a peer connection: it
    never raises and never changes the manager; it emits an answer only
    after setRemoteDescription, createAnswer and setLocalDescription have
    been called in that order and have all succeeded, and the answer it
    emits is the one it set as local description; when all three succeed
    and the socket is there, it does emit it. *)
Theorem answer_only_after_descriptions
  (offer : json) (env : rtcEnv) (m : manager) (Hpc : peerConnection m = true) :
  post (on_offer (wire := wire) offer env m) = m /\
  raised (on_offer (wire := wire) offer env m) = false /\
  (forall payload,
     In (SocketEmit "answer" payload) (trace (on_offer (wire := wire) offer env m)) ->
     exists a,
       setRemote_ok env = true /\ createAnswer_res env = Some a /\
       setLocal_ok env = true /\
       trace (on_offer (wire := wire) offer env m)
         = [PcSetRemoteDescription offer; PcCreateAnswer; PcSetLocalDescription (Some a);
            SocketEmit "answer" (JObj [("roomId", JStr (roomId m)); ("answer", a)])]) /\
  (forall a,
     setRemote_ok env = true -> createAnswer_res env = Some a ->
     setLocal_ok env = true -> socket m = true ->
     trace (on_offer (wire := wire) offer env m)
       = [PcSetRemoteDescription offer; PcCreateAnswer; PcSetLocalDescription (Some a);
          SocketEmit "answer" (JObj [("roomId", JStr (roomId m)); ("answer", a)])]).
Proof.
  unfold on_offer, emit, done. rewrite Hpc. cbn [post raised trace].
  split; [reflexivity|]. split; [reflexivity|]. split.
  - intros payload Hin.
    destruct (setRemote_ok env); [|simpl in Hin; intuition discriminate].
    destruct (createAnswer_res env) as [a|]; [|simpl in Hin; intuition discriminate].
    destruct (setLocal_ok env); [|simpl in Hin; intuition discriminate].
    destruct (socket m); [|simpl in Hin; intuition discriminate].
    exists a. repeat split.
  - intros a -> -> -> ->. reflexivity.
Qed.

(** X12. The ready-to-connect handler: it never raises and never changes
    the manager; it emits an offer only when the manager is the host with
    a peer connection, after createOffer and setLocalDescription have been
    called in that order and have both succeeded; when createOffer or
    setLocalDescription fails, nothing is emitted. *)
Theorem offer_only_after_local_description (env : rtcEnv) (m : manager) :
  post (on_ready_to_connect (wire := wire) env m) = m /\
  raised (on_ready_to_connect (wire := wire) env m) = false /\
  (forall payload,
     In (SocketEmit "offer" payload) (trace (on_ready_to_connect (wire := wire) env m)) ->
     exists o,
       isHost m = true /\ peerConnection m = true /\
       createOffer_res env = Some o /\ setLocal_ok env = true /\
       trace (on_ready_to_connect (wire := wire) env m)
         = [PcCreateOffer; PcSetLocalDescription (Some o);
            SocketEmit "offer" (JObj [("roomId", JStr (roomId m)); ("offer", o)])]) /\
  (createOffer_res env = None \/ setLocal_ok env = false ->
   forall ev payload,
     ~ In (SocketEmit ev payload) (trace (on_ready_to_connect (wire := wire) env m))).
Proof.
  unfold on_ready_to_connect, emit, done.
  split; [now destruct (isHost m && peerConnection m)|].
  split; [now destruct (isHost m && peerConnection m)|]. split.
  - intros payload Hin.
    destruct (isHost m); [|simpl in Hin; contradiction].
    destruct (peerConnection m); [|simpl in Hin; contradiction].
    cbn [andb trace] in *.
    destruct (createOffer_res env) as [o|]; [|simpl in Hin; intuition discriminate].
    destruct (setLocal_ok env); [|simpl in Hin; intuition discriminate].
    destruct (socket m); [|simpl in Hin; intuition discriminate].
    exists o. repeat split.
  - intros Hfail ev payload Hin.
    destruct (isHost m && peerConnection m); [|simpl in Hin; contradiction].
    cbn [trace] in Hin.
    destruct (createOffer_res env) as [o|]; [|simpl in Hin; intuition discriminate].
    destruct (setLocal_ok env); [|simpl in Hin; intuition discriminate].
    destruct Hfail; discriminate.
Qed.

(** X13. The message handler of the data channel, on any frame: it never
    raises, never changes the manager and makes at most one callback; a
    frame that does not parse, that parses to null, or whose type is
    neither "chat" nor "player-sync" makes no callback. *)
Theorem malformed_frames_are_dropped (data : wire) (m : manager) :
  post (dc_onmessage data m) = m /\
  raised (dc_onmessage data m) = false /\
  length (trace (dc_onmessage data m)) <= 1 /\
  (trace (dc_onmessage data m) <> [] ->
   callbacks m = true /\
   exists message,
     JSON_parse data = Some message /\
     (field message "type" = Some (JStr "chat") \/
      field message "type" = Some (JStr "player-sync"))).
Proof.
  unfold dc_onmessage, done, cb.
  destruct (JSON_parse data) as [message|] eqn:P.
  2: { cbn. repeat split; first [lia | congruence | (intros; congruence)]. }
  destruct (prop message "type") as [ty|] eqn:T.
  2: { cbn. repeat split; first [lia | congruence | (intros; congruence)]. }
  destruct (is_str ty "chat") eqn:Hchat; [|destruct (is_str ty "player-sync") eqn:Hsync].
  3: { cbn. repeat split; first [lia | congruence | (intros; congruence)]. }
  all: destruct (callbacks m); cbn;
    (split; [reflexivity|]); (split; [reflexivity|]); (split; [lia|]);
    intros H; try (now contradiction H);
    (split; [reflexivity|]); exists message; (split; [reflexivity|]).
  - left. unfold field. rewrite T. destruct ty as [[| | |sv| |]|]; try discriminate.
    simpl in Hchat. apply String.eqb_eq in Hchat. now subst.
  - right. unfold field. rewrite T. destruct ty as [[| | |sv| |]|]; try discriminate.
    simpl in Hsync. apply String.eqb_eq in Hsync. now subst.
Qed.

(** X16. The peer-left handler: the count it stores is the server's count
    minus one, but never below zero; and it reports connected exactly when
    the server's count is at least 2, disconnected otherwise, whatever the
    state of the peer connection or of the data channel. *)
Theorem peer_left_count_and_status (n : Z) (m : manager) :
  peersCount (post (on_peer_left (wire := wire) n m)) = Z.max 0 (n - 1) /\
  (0 <= peersCount (post (on_peer_left (wire := wire) n m)))%Z /\
  (callbacks m = true ->
   trace (on_peer_left (wire := wire) n m)
     = [OnConnectionChange (if Z.leb 2 n then Connected else Disconnected)
                           (Z.max 0 (n - 1))]).
Proof.
  unfold on_peer_left, done, cb, set_peersCount. cbn [post trace peersCount callbacks].
  split; [reflexivity|]. split; [lia|].
  intros ->. f_equal. f_equal.
  destruct (Z.ltb_spec 0 (Z.max 0 (n - 1))), (Z.leb_spec 2 n); try reflexivity; lia.
Qed.

End Negotiation.

(** The guest answers the host's offer. *)
Lemma answer_only_after_descriptions_witness :
  Client.trace (Client.on_offer (wire := json) (JStr "sdp-offer") rtc_ok guest_open)
    = [Client.PcSetRemoteDescription (JStr "sdp-offer"); Client.PcCreateAnswer;
       Client.PcSetLocalDescription (Some (JStr "sdp-answer"));
       Client.SocketEmit "answer"
         (JObj [("roomId", JStr "abc123"); ("answer", JStr "sdp-answer")])].
Proof.
  apply (answer_only_after_descriptions (wire := json) (JStr "sdp-offer") rtc_ok guest_open
           eq_refl); reflexivity.
Defined.

(** The host's createOffer is rejected: nothing is emitted. *)
Lemma offer_only_after_local_description_witness :
  ~ In (Client.SocketEmit "offer"
          (JObj [("roomId", JStr "abc123"); ("offer", JStr "sdp-offer")]))
       (Client.trace (Client.on_ready_to_connect (wire := json)
          {| Client.setRemote_ok := true; Client.createAnswer_res := None;
             Client.createOffer_res := None; Client.setLocal_ok := true;
             Client.addIce_ok := true; Client.send_ok := true |} host_open)).
Proof.
  apply (offer_only_after_local_description (wire := json)). now left.
Defined.

(** A chat frame makes the guest call onMessage. *)
Lemma malformed_frames_are_dropped_witness :
  Client.callbacks guest_open = true /\
  exists message,
    Client.JSON_parse (JsonCodec := structural)
      (Client.chat_envelope "hi" "User7" "2025-01-01T00:00:00.000Z") = Some message /\
    (Client.field message "type" = Some (JStr "chat") \/
     Client.field message "type" = Some (JStr "player-sync")).
Proof.
  apply (malformed_frames_are_dropped (codec := structural)
           (Client.chat_envelope "hi" "User7" "2025-01-01T00:00:00.000Z") guest_open).
  simpl. discriminate.
Defined.

(** The last peer of the host leaves. *)
Lemma peer_left_count_and_status_witness :
  Client.trace (Client.on_peer_left (wire := json) 1 host_open)
    = [Client.OnConnectionChange Client.Disconnected 0].
Proof.
  apply (peer_left_count_and_status (wire := json) 1 host_open). reflexivity.
Defined.

Section SyncPath.
Import Client.
Context {wire : Type} {codec : JsonCodec wire}.

(** [JSON.parse] reads back what [JSON.stringify] wrote. *)
Hypothesis JSON_round_trip : forall v : json, JSON_parse (JSON_stringify v) = Some v.

Lemma sync_received (sender receiver : manager) act data env env' :
  dataChannel sender = Some RsOpen ->
  dataChannel receiver <> None ->
  callbacks receiver = true ->
  trace (step env sender (CallSyncPlayer act data))
    = [DcSend (JSON_stringify (sync_envelope act data))] /\
  trace (step env' receiver (DcMessage (JSON_stringify (sync_envelope act data))))
    = [OnPlayerSync (Some (JObj (spread_action act data)))].
Proof.
  intros Hopen Hdc Hcb. split.
  - unfold step, syncPlayer, channel_open. now rewrite Hopen.
  - unfold step. destruct (dataChannel receiver); [|congruence].
    unfold dc_onmessage. rewrite JSON_round_trip.
    unfold sync_envelope, cb. cbn. now rewrite Hcb.
Qed.

Lemma spread_absent_key act (fs : list (string * json)) k :
  JsMap.get k fs = None ->
  JsMap.get k (spread_action act (Some fs)) = JsMap.get k [("action", JStr act)].
Proof.
  intros Hnone. unfold spread_action. rewrite get_spread.
  destruct (JsMap.get k (rev fs)) as [v|] eqn:G; [|reflexivity].
  apply JsMapFacts.get_in in G. apply in_rev in G.
  apply JsMapFacts.get_none_notin in Hnone. exfalso. apply Hnone.
  change k with (fst (k, v)). now apply in_map.
Qed.

(** X14. Round trip of a player-sync: the frame that [syncPlayer] writes
    on an open channel, handed to the message handler of a peer that has
    its channel and its callbacks, makes that handler call onPlayerSync
    once, with the object [{ action, ...data }] the sender built. *)
Theorem sync_round_trip
  (sender receiver : manager) (act : string) (data : option (list (string * json)))
  (env env' : rtcEnv) :
  dataChannel sender = Some RsOpen ->
  dataChannel receiver <> None ->
  callbacks receiver = true ->
  exists w,
    trace (step env sender (CallSyncPlayer act data)) = [DcSend w] /\
    trace (step env' receiver (DcMessage w))
      = [OnPlayerSync (Some (JObj (spread_action act data)))].
Proof.
  intros Hopen Hdc Hcb.
  exists (JSON_stringify (sync_envelope act data)).
  now apply sync_received.
Qed.

(** X15. From [syncPlayer] to the player of the peer. The object that
    arrives in onPlayerSync is handed on as the detail of the youtube-sync
    event, and the listener of the player component reads [action] and
    [data] from that detail. The sender put the fields of its data beside
    [action], not under a field [data]: so when the sender's data has no
    field named data or action, the listener of a mounted player makes no
    call on the player at all; it throws (reading a property of undefined)
    when the action is play, pause, seek or loadVideo, and does nothing
    for any other action. *)
Theorem sync_never_reaches_player
  (sender receiver : manager) (act : string) (fs : list (string * json))
  (env env' : rtcEnv) :
  dataChannel sender = Some RsOpen ->
  dataChannel receiver <> None ->
  callbacks receiver = true ->
  JsMap.get "data" fs = None ->
  JsMap.get "action" fs = None ->
  exists w detail,
    trace (step env sender (CallSyncPlayer act (Some fs))) = [DcSend w] /\
    trace (step env' receiver (DcMessage w)) = [OnPlayerSync detail] /\
    YouTubePlayer.calls (YouTubePlayer.handleSync detail true) = [] /\
    YouTubePlayer.threw (YouTubePlayer.handleSync detail true) = known_action act.
Proof.
  intros Hopen Hdc Hcb Hdata Haction.
  destruct (sync_received sender receiver act (Some fs) env env' Hopen Hdc Hcb) as [Hs Hr].
  exists (JSON_stringify (sync_envelope act (Some fs))),
         (Some (JObj (spread_action act (Some fs)))).
  split; [exact Hs|]. split; [exact Hr|].
  unfold YouTubePlayer.handleSync, YouTubePlayer.read, prop.
  rewrite (spread_absent_key act fs "action" Haction).
  rewrite (spread_absent_key act fs "data" Hdata).
  cbn [JsMap.get String.eqb Ascii.eqb Bool.eqb negb is_str].
  unfold known_action.
  destruct (String.eqb act "play"); [split; reflexivity|].
  destruct (String.eqb act "pause"); [split; reflexivity|].
  destruct (String.eqb act "seek"); [split; reflexivity|].
  destruct (String.eqb act "loadVideo"); split; reflexivity.
Qed.

End SyncPath.

(** The host's player starts playing; the guest's player is not called. *)
Lemma sync_round_trip_witness :
  exists w,
    Client.trace (Client.step (codec := structural) rtc_ok host_open
                    (Client.CallSyncPlayer "seek" (Some [("currentTime", JNum 42)])))
      = [Client.DcSend w] /\
    Client.trace (Client.step (codec := structural) rtc_ok guest_open (Client.DcMessage w))
      = [Client.OnPlayerSync
           (Some (JObj [("action", JStr "seek"); ("currentTime", JNum 42)]))].
Proof.
  apply (sync_round_trip (codec := structural) (fun v => eq_refl)
           host_open guest_open "seek" (Some [("currentTime", JNum 42)]) rtc_ok rtc_ok).
  - reflexivity.
  - simpl. discriminate.
  - reflexivity.
Defined.

Lemma sync_never_reaches_player_witness :
  exists w detail,
    Client.trace (Client.step (codec := structural) rtc_ok host_open
                    (Client.CallSyncPlayer "play"
                       (Some [("currentTime", JNum 42); ("videoId", JStr "dQw4w9WgXcQ")])))
      = [Client.DcSend w] /\
    Client.trace (Client.step (codec := structural) rtc_ok guest_open (Client.DcMessage w))
      = [Client.OnPlayerSync detail] /\
    YouTubePlayer.calls (YouTubePlayer.handleSync detail true) = [] /\
    YouTubePlayer.threw (YouTubePlayer.handleSync detail true) = true.
Proof.
  apply (sync_never_reaches_player (codec := structural) (fun v => eq_refl)
           host_open guest_open "play"
           [("currentTime", JNum 42); ("videoId", JStr "dQw4w9WgXcQ")] rtc_ok rtc_ok).
  - reflexivity.
  - simpl. discriminate.
  - reflexivity.
  - reflexivity.
  - reflexivity.
Defined.

Section Lifecycle.
Import Client.
Context {wire : Type} {codec : JsonCodec wire}.

(** X17. [disconnect()] of a manager that holds a socket, a peer
    connection, a data channel and callbacks closes the data channel
    first, then the peer connection, then the socket, and then reports
    disconnected with zero peers; and whatever the manager held, after
    [disconnect()] neither [sendMessage] nor [syncPlayer] writes anything
    on the data channel. *)
Theorem disconnect_closes_in_order_and_silences (m : manager) (env : rtcEnv) :
  (socket m = true -> peerConnection m = true -> dataChannel m <> None ->
   callbacks m = true ->
   trace (disconnect (wire := wire) m)
     = [DcCloseCall; PcClose; SocketDisconnect; OnConnectionChange Disconnected 0]) /\
  (forall text now,
     sendMessage text now env (post (disconnect (wire := wire) m))
       = done (post (disconnect (wire := wire) m)) []) /\
  (forall act data,
     syncPlayer act data env (post (disconnect (wire := wire) m))
       = done (post (disconnect (wire := wire) m)) []).
Proof.
  split; [|split].
  - intros Hs Hp Hd Hc. unfold disconnect, done, cb. rewrite Hs, Hp, Hc.
    destruct (dataChannel m); [reflexivity | congruence].
  - intros text now. unfold sendMessage, disconnect, done, channel_open. cbn [post].
    destruct (dataChannel m) as [[| | |]|] eqn:D;
      unfold set_dataChannel; cbn [dataChannel]; rewrite ?D; reflexivity.
  - intros act data. unfold syncPlayer, disconnect, done, channel_open. cbn [post].
    destruct (dataChannel m) as [[| | |]|] eqn:D;
      unfold set_dataChannel; cbn [dataChannel]; rewrite ?D; reflexivity.
Qed.

(** X18. A manager fresh from its constructor and [initialize] writes
    nothing on the data channel, host or guest: the host's channel is
    still connecting and the guest has none. Once the host's channel has
    opened, [sendMessage] writes one chat frame whose sender is the name
    drawn in the constructor. *)
Theorem nothing_sent_before_channel_opens
  (room : string) (host : bool) (rnd : nat) (text now : string) (env env' : rtcEnv) :
  let m := post (initialize (wire := wire) (constructor room host rnd)) in
  trace (sendMessage text now env m) = [] /\
  (forall act data, trace (syncPlayer act data env m) = []) /\
  (host = true ->
   trace (sendMessage text now env (post (step env' m DcOpen)))
     = [DcSend (JSON_stringify (chat_envelope text (default_username rnd) now))]).
Proof.
  cbv zeta. unfold initialize, constructor, done. cbn [post isHost dataChannel].
  split; [|split].
  - unfold sendMessage, channel_open. cbn [dataChannel]. now destruct host.
  - intros act data. unfold syncPlayer, channel_open. cbn [dataChannel]. now destruct host.
  - intros ->. reflexivity.
Qed.

Lemma step_keeps_identity (env : rtcEnv) (m : manager) (e : cevent wire) :
  roomId (post (step env m e)) = roomId m /\
  isHost (post (step env m e)) = isHost m /\
  username (post (step env m e)) = username m.
Proof.
  destruct m as [sk pc dc room host cbs name n].
  destruct e;
    unfold step, initialize, sendMessage, syncPlayer, disconnect, on_connect,
      on_disconnect, on_room_joined, on_peer_joined, on_peer_left, on_offer,
      on_answer, on_ice_candidate, on_ready_to_connect, pc_onicecandidate,
      pc_onconnectionstatechange, pc_ondatachannel, dc_onopen, dc_onclose,
      dc_onmessage, channel_open, done, set_dataChannel, set_peersCount;
    cbn [socket peerConnection dataChannel roomId isHost callbacks username
         peersCount post trace raised];
    try (destruct state);
    repeat match goal with
           | |- context [if ?b then _ else _] => destruct b
           | |- context [match ?x with Some _ => _ | None => _ end] => destruct x
           | |- context [match ?x with RsClosed => _ | _ => _ end] => destruct x
           | |- context [match ?x with JNull => _ | _ => _ end] => destruct x
           end;
    repeat split.
Qed.

(** X19. No method and no handler of the manager ever changes its roomId,
    its isHost flag or its username: over any sequence of events they stay
    what the constructor made them. *)
Theorem identity_is_fixed (es : list (rtcEnv * cevent wire)) (m : manager) :
  roomId (fst (run m es)) = roomId m /\
  isHost (fst (run m es)) = isHost m /\
  username (fst (run m es)) = username m.
Proof.
  revert m. induction es as [|[env e] es IH]; intros m; [repeat split|].
  cbn [run]. specialize (IH (post (step env m e))).
  destruct (run (post (step env m e)) es) as [m1 t]. cbn [fst] in *.
  destruct (step_keeps_identity env m e) as (Hr & Hh & Hu).
  destruct IH as (IHr & IHh & IHu).
  rewrite IHr, IHh, IHu. auto.
Qed.

End Lifecycle.

(** The host of "abc123" disconnects. *)
Lemma disconnect_closes_in_order_and_silences_witness :
  Client.trace (Client.disconnect (wire := json) host_open)
    = [Client.DcCloseCall; Client.PcClose; Client.SocketDisconnect;
       Client.OnConnectionChange Client.Disconnected 0].
Proof.
  apply (disconnect_closes_in_order_and_silences (codec := structural) host_open rtc_ok).
  - reflexivity.
  - reflexivity.
  - simpl. discriminate.
  - reflexivity.
Defined.

(** The host "User7" says "hi" once its channel is open. *)
Lemma nothing_sent_before_channel_opens_witness :
  Client.trace
    (Client.sendMessage (codec := structural) "hi" "2025-01-01T00:00:00.000Z" rtc_ok
       (Client.post
          (Client.step (codec := structural) rtc_ok
             (Client.post (Client.initialize (wire := json) (Client.constructor "abc123" true 7)))
             Client.DcOpen)))
    = [Client.DcSend (Client.chat_envelope "hi" "User7" "2025-01-01T00:00:00.000Z")].
Proof.
  apply (nothing_sent_before_channel_opens (codec := structural)
           "abc123" true 7 "hi" "2025-01-01T00:00:00.000Z" rtc_ok rtc_ok).
  reflexivity.
Defined.

(** * The video id of a URL *)

Section VideoId.
Import YouTubePlayer.
Local Open Scope string_scope.

Lemma starts_with_app (p r : string) : starts_with p (p ++ r) = Some r.
Proof.
  induction p as [|a p IH]; simpl; [reflexivity|].
  now rewrite Ascii.eqb_refl.
Qed.

Lemma starts_with_sound (p s r : string) : starts_with p s = Some r -> s = p ++ r.
Proof.
  revert s. induction p as [|a p IH]; intros s H; simpl in *.
  - now inversion H.
  - destruct s as [|b s]; [discriminate|].
    destruct (Ascii.eqb a b) eqn:E; [|discriminate].
    apply Ascii.eqb_eq in E; subst b. f_equal. now apply IH.
Qed.

Lemma take_id_sound (n : nat) : forall s v,
  take_id n s = Some v ->
  exists post, s = v ++ post /\ String.length v = n /\ all_id_chars v.
Proof.
  induction n as [|n IH]; intros s v H; simpl in H.
  - inversion H; subst. exists s. repeat split. constructor.
  - destruct s as [|c s]; [discriminate|].
    destruct (id_char c) eqn:C; [|discriminate].
    destruct (take_id n s) as [v'|] eqn:T; [|discriminate].
    simpl in H. inversion H; subst.
    destruct (IH s v' T) as (post & -> & Hlen & Hall).
    exists post. simpl. repeat split; [now rewrite Hlen | now constructor].
Qed.

Lemma take_id_complete (v rest : string) :
  all_id_chars v -> take_id (String.length v) (v ++ rest) = Some v.
Proof.
  unfold all_id_chars. induction v as [|c v IH]; simpl; intros H; [reflexivity|].
  inversion H as [|? ? Hc Hv]; subst. rewrite Hc, IH by exact Hv. reflexivity.
Qed.

Lemma match_at_sound (ps : list string) (s v : string) :
  match_at ps s = Some v ->
  exists p post, In p ps /\ s = p ++ v ++ post /\ String.length v = 11 /\ all_id_chars v.
Proof.
  induction ps as [|p ps IH]; cbn [match_at]; intros H; [discriminate|].
  destruct (starts_with p s) as [rest|] eqn:S.
  - destruct (take_id 11 rest) as [v'|] eqn:T.
    + injection H as ->. apply starts_with_sound in S.
      destruct (take_id_sound 11 rest v T) as (post & -> & Hlen & Hall).
      exists p, post. split; [now left | auto].
    + destruct (IH H) as (p' & post & Hin & Hs & Hv).
      exists p', post. split; [now right | auto].
  - destruct (IH H) as (p' & post & Hin & Hs & Hv).
    exists p', post. split; [now right | auto].
Qed.

(** X20. Whatever [extractVideoId] returns is taken from the URL: it is a
    run of exactly eleven characters of [a-zA-Z0-9_-] that stands in the
    URL right after one of youtube.com/watch?v=, youtu.be/ or
    youtube.com/embed/. *)
Theorem extractVideoId_sound (url v : string) :
  extractVideoId url = Some v ->
  String.length v = 11 /\ all_id_chars v /\
  exists pre p post, In p prefixes /\ url = pre ++ p ++ v ++ post.
Proof.
  induction url as [|c url IH]; intros H.
  - simpl in H. discriminate.
  - cbn [extractVideoId] in H.
    destruct (match_at prefixes (String c url)) as [v'|] eqn:M.
    + injection H as ->.
      destruct (match_at_sound _ _ _ M) as (p & post & Hin & Hs & Hlen & Hall).
      repeat split; try assumption. exists EmptyString, p, post. auto.
    + destruct (IH H) as (Hlen & Hall & pre & p & post & Hin & ->).
      repeat split; try assumption. exists (String c pre), p, post. auto.
Qed.

Lemma extractVideoId_sound_witness :
  exists pre p post,
    In p prefixes /\
    "https://www.youtube.com/watch?v=dQw4w9WgXcQ&t=3" = pre ++ p ++ "dQw4w9WgXcQ" ++ post.
Proof.
  apply (extractVideoId_sound "https://www.youtube.com/watch?v=dQw4w9WgXcQ&t=3" "dQw4w9WgXcQ").
  reflexivity.
Defined.

Lemma extract_skip (c : ascii) (s : string) :
  match_at prefixes (String c s) = None ->
  extractVideoId (String c s) = extractVideoId s.
Proof. intros H. cbn [extractVideoId]. now rewrite H. Qed.

Lemma extract_hit (s v : string) :
  match_at prefixes s = Some v -> extractVideoId s = Some v.
Proof. intros H. destruct s; cbn [extractVideoId]; now rewrite H. Qed.

Lemma match_at_prefix (p v rest : string) :
  In p prefixes -> String.length v = 11 -> all_id_chars v ->
  match_at prefixes (p ++ v ++ rest) = Some v.
Proof.
  intros Hin Hlen Hall.
  pose proof (take_id_complete v rest Hall) as T. rewrite Hlen in T.
  destruct Hin as [<-|[<-|[<-|[]]]]; cbn -[take_id]; now rewrite T.
Qed.

(** X21. For every video id [v] of eleven characters of [a-zA-Z0-9_-] and
    every text [rest] after it, [extractVideoId] returns [v] from the
    usual forms of a YouTube address: the watch, short and embed
    addresses, with or without https://www. in front. In particular the
    address the guest page builds from a received id,
    https://www.youtube.com/watch?v= followed by the id, gives that id
    back. *)
Theorem extractVideoId_usual_forms (head v rest : string) :
  In head ["youtube.com/watch?v="; "youtu.be/"; "youtube.com/embed/";
           "https://www.youtube.com/watch?v="; "https://youtu.be/";
           "https://www.youtube.com/embed/"] ->
  String.length v = 11 -> all_id_chars v ->
  extractVideoId (head ++ v ++ rest) = Some v /\
  WatchTogether.extractVideoId (head ++ v ++ rest) = Some v.
Proof.
  intros Hin Hlen Hall. unfold WatchTogether.extractVideoId.
  assert (H : extractVideoId (head ++ v ++ rest) = Some v); [|now split].
  destruct Hin as [<-|[<-|[<-|[<-|[<-|[<-|[]]]]]]].
  - apply extract_hit. apply match_at_prefix; auto. now left.
  - apply extract_hit. apply match_at_prefix; auto. right. now left.
  - apply extract_hit. apply match_at_prefix; auto. right. right. now left.
  - cbn [append]. repeat (rewrite extract_skip by reflexivity).
    apply extract_hit.
    apply (match_at_prefix "youtube.com/watch?v=" v rest); auto. now left.
  - cbn [append]. repeat (rewrite extract_skip by reflexivity).
    apply extract_hit.
    apply (match_at_prefix "youtu.be/" v rest); auto. right. now left.
  - cbn [append]. repeat (rewrite extract_skip by reflexivity).
    apply extract_hit.
    apply (match_at_prefix "youtube.com/embed/" v rest); auto. right. right. now left.
Qed.

Lemma match_at_none (ps : list string) (s : string) :
  (forall p, In p ps -> starts_with p s = None) -> match_at ps s = None.
Proof.
  induction ps as [|p ps IH]; intros H; simpl; [reflexivity|].
  rewrite (H p (or_introl eq_refl)). apply IH. intros p' Hin. apply H. now right.
Qed.

(** X22. A URL in which none of youtube.com/watch?v=, youtu.be/ and
    youtube.com/embed/ occurs has no video id: [extractVideoId] returns
    null. *)
Theorem extractVideoId_other_site (url : string) :
  (forall pre p post, In p prefixes -> url <> pre ++ p ++ post) ->
  extractVideoId url = None.
Proof.
  induction url as [|c url IH]; intros H.
  - reflexivity.
  - rewrite extract_skip.
    + apply IH. intros pre p post Hin ->.
      apply (H (String c pre) p post Hin). reflexivity.
    + apply match_at_none. intros p Hin.
      destruct (starts_with p (String c url)) as [r|] eqn:S; [|reflexivity].
      apply starts_with_sound in S. exfalso.
      apply (H EmptyString p r Hin). exact S.
Qed.

End VideoId.

Lemma extractVideoId_usual_forms_witness :
  YouTubePlayer.extractVideoId "https://youtu.be/dQw4w9WgXcQ?t=42" = Some "dQw4w9WgXcQ".
Proof.
  apply (extractVideoId_usual_forms "https://youtu.be/" "dQw4w9WgXcQ" "?t=42").
  - simpl. tauto.
  - reflexivity.
  - repeat constructor.
Defined.

Lemma extractVideoId_other_site_witness :
  YouTubePlayer.extractVideoId "https://vimeo.com/1" = None.
Proof.
  apply extractVideoId_other_site.
  intros pre p post Hin H.
  repeat (destruct pre as [|? pre];
          [destruct Hin as [<-|[<-|[<-|[]]]]; discriminate H
          | simpl in H; injection H as _ H]).
  destruct pre; [destruct Hin as [<-|[<-|[<-|[]]]]; discriminate H | discriminate H].
Defined.

(** * From the chat panel to the data channel *)

Section ChatPath.
Import Client.
Context {wire : Type} {codec : JsonCodec wire}.
Variable trim : string -> string.


End ChatPath.


Section StatusReports.
Import Client.
Context {wire : Type} {codec : JsonCodec wire}.

(** X24. Over every method and handler of the manager: the status
    connected is reported to the page only when the data channel opens,
    when the peer connection reaches the state connected, or on a
    peer-left whose count is at least 2; and the peer count reported with
    it is the one the manager holds after the event. *)
Theorem connected_is_reported_only_on
  (env : rtcEnv) (m : manager) (e : cevent wire) (n : Z) :
  In (OnConnectionChange Connected n) (trace (step env m e)) ->
  (e = DcOpen \/ e = PcConnectionStateChange PcConnected \/
   exists k, e = SockPeerLeft k /\ (2 <= k)%Z) /\
  n = peersCount (post (step env m e)).
Proof.
  destruct m as [sk pc dc room host cbs name cnt].
  destruct e;
    unfold step, initialize, sendMessage, syncPlayer, disconnect, on_connect,
      on_disconnect, on_room_joined, on_peer_joined, on_peer_left, on_offer,
      on_answer, on_ice_candidate, on_ready_to_connect, pc_onicecandidate,
      pc_onconnectionstatechange, pc_ondatachannel, dc_onopen, dc_onclose,
      dc_onmessage, channel_open, done, cb, emit, set_dataChannel, set_peersCount;
    cbn [socket peerConnection dataChannel roomId isHost callbacks username
         peersCount post trace raised];
    intros Hin.
  all: try (destruct state).
  all: try (destruct (Z.ltb 0 (Z.max 0 (n0 - 1))) eqn:Hlt).
  all: repeat match goal with
              | H : context [if ?b then _ else _] |- _ => destruct b
              | H : context [match ?x with Some _ => _ | None => _ end] |- _ => destruct x
              | H : context [match ?x with RsClosed => _ | _ => _ end] |- _ => destruct x
              end;
    cbn in Hin;
    repeat match goal with
           | H : _ \/ _ |- _ => destruct H
           | H : False |- _ => destruct H
           | H : _ = OnConnectionChange _ _ |- _ =>
               first [discriminate H | injection H as <-]
           end.
  all: try (split; [now left | reflexivity]).
  all: try (split; [right; now left | reflexivity]).
  split; [|reflexivity]. right. right. exists n0. split; [reflexivity|].
  apply Z.ltb_lt in Hlt. lia.
Qed.

(** X25. From the player of one side to the player of the other. A state
    change of the local player produces a sync only for the states playing
    and paused; the page passes it to [syncPlayer], which, on an open
    channel, writes one frame; the peer's message handler hands its data
    to onPlayerSync, and the listener of the peer's mounted player, given
    that data as event detail, throws before it calls the player. For any
    other state nothing is sent. *)
Theorem player_state_change_never_moves_peer
  (JSON_round_trip : forall v : json, JSON_parse (JSON_stringify v) = Some v)
  (state : YouTubePlayer.playerState) (currentTime : Z) (videoId : string)
  (pg : WatchTogether.page) (sender receiver : manager) (env env' : rtcEnv) :
  WatchTogether.webrtcRef pg = Some sender ->
  dataChannel sender = Some RsOpen ->
  dataChannel receiver <> None ->
  callbacks receiver = true ->
  match YouTubePlayer.onStateChange state currentTime videoId with
  | None => state <> YouTubePlayer.Playing /\ state <> YouTubePlayer.Paused
  | Some (act, fs) =>
      (state = YouTubePlayer.Playing \/ state = YouTubePlayer.Paused) /\
      exists w detail,
        WatchTogether.sent (WatchTogether.handlePlayerEvent act (Some fs) env pg)
          = [DcSend w] /\
        trace (step env' receiver (DcMessage w)) = [OnPlayerSync detail] /\
        YouTubePlayer.handleSync detail true
          = {| YouTubePlayer.calls := []; YouTubePlayer.threw := true |}
  end.
Proof.
  intros Href Hopen Hdc Hcb.
  assert (Hrecv : forall act fs,
            trace (step env' receiver (DcMessage (JSON_stringify (sync_envelope act (Some fs)))))
              = [OnPlayerSync (Some (JObj (spread_action act (Some fs))))]).
  { intros act fs. unfold step. destruct (dataChannel receiver); [|congruence].
    unfold dc_onmessage. rewrite JSON_round_trip.
    unfold sync_envelope, cb. cbn. now rewrite Hcb. }
  assert (Hsent : forall act fs,
            WatchTogether.sent (WatchTogether.handlePlayerEvent act (Some fs) env pg)
              = [DcSend (JSON_stringify (sync_envelope act (Some fs)))]).
  { intros act fs. unfold WatchTogether.handlePlayerEvent. rewrite Href.
    unfold syncPlayer, channel_open. now rewrite Hopen. }
  destruct state; cbn [YouTubePlayer.onStateChange];
    try (split; discriminate).
  - split; [now left|]. eexists. eexists.
    split; [apply Hsent|]. split; [apply Hrecv|]. reflexivity.
  - split; [now right|]. eexists. eexists.
    split; [apply Hsent|]. split; [apply Hrecv|]. reflexivity.
Qed.

(** X26. Over every method and handler of the manager: whenever the
    status disconnected is reported to the page, the peer count reported
    with it is 0. *)
Theorem disconnected_is_reported_with_zero
  (env : rtcEnv) (m : manager) (e : cevent wire) (n : Z) :
  In (OnConnectionChange Disconnected n) (trace (step env m e)) -> n = 0%Z.
Proof.
  destruct m as [sk pc dc room host cbs name cnt].
  destruct e;
    unfold step, initialize, sendMessage, syncPlayer, disconnect, on_connect,
      on_disconnect, on_room_joined, on_peer_joined, on_peer_left, on_offer,
      on_answer, on_ice_candidate, on_ready_to_connect, pc_onicecandidate,
      pc_onconnectionstatechange, pc_ondatachannel, dc_onopen, dc_onclose,
      dc_onmessage, channel_open, done, cb, emit, set_dataChannel, set_peersCount;
    cbn [socket peerConnection dataChannel roomId isHost callbacks username
         peersCount post trace raised];
    intros Hin.
  all: try (destruct state).
  all: try (destruct (Z.ltb 0 (Z.max 0 (n0 - 1))) eqn:Hlt).
  all: repeat match goal with
              | H : context [if ?b then _ else _] |- _ => destruct b
              | H : context [match ?x with Some _ => _ | None => _ end] |- _ => destruct x
              | H : context [match ?x with RsClosed => _ | _ => _ end] |- _ => destruct x
              end;
    cbn in Hin;
    repeat (rewrite in_app_iff in Hin; cbn in Hin);
    repeat match goal with
           | H : _ \/ _ |- _ => destruct H
           | H : False |- _ => destruct H
           | H : _ = OnConnectionChange _ _ |- _ =>
               first [discriminate H | injection H as <-]
           end.
  all: try reflexivity.
  apply Z.ltb_ge in Hlt. lia.
Qed.

End StatusReports.

(** The last peer of the host leaves. *)
Lemma disconnected_is_reported_with_zero_witness :
  exists n,
    In (Client.OnConnectionChange Client.Disconnected n)
       (Client.trace (Client.step (codec := structural) rtc_ok host_open
                        (Client.SockPeerLeft 1))) /\
    n = 0%Z.
Proof.
  exists 0%Z. split; [now left|].
  apply (disconnected_is_reported_with_zero (codec := structural) rtc_ok host_open
           (Client.SockPeerLeft 1) 0).
  now left.
Defined.

(** The data channel of the guest opens. *)
Lemma connected_is_reported_only_on_witness :
  0%Z = Client.peersCount
          (Client.post (Client.step (codec := structural) rtc_ok guest_open Client.DcOpen)).
Proof.
  apply (connected_is_reported_only_on (codec := structural) rtc_ok guest_open
           Client.DcOpen 0).
  now left.
Defined.

(** The host's player starts playing at second 42. *)
Lemma player_state_change_never_moves_peer_witness :
  exists w detail,
    WatchTogether.sent
      (WatchTogether.handlePlayerEvent (codec := structural) "play"
         (Some [("currentTime", JNum 42); ("videoId", JStr "dQw4w9WgXcQ")]) rtc_ok
         {| WatchTogether.webrtcRef := Some host_open; WatchTogether.messages := [] |})
      = [Client.DcSend w] /\
    Client.trace (Client.step (codec := structural) rtc_ok guest_open (Client.DcMessage w))
      = [Client.OnPlayerSync detail] /\
    YouTubePlayer.handleSync detail true
      = {| YouTubePlayer.calls := []; YouTubePlayer.threw := true |}.
Proof.
  apply (player_state_change_never_moves_peer (codec := structural) (fun v => eq_refl)
           YouTubePlayer.Playing 42 "dQw4w9WgXcQ"
           {| WatchTogether.webrtcRef := Some host_open; WatchTogether.messages := [] |}
           host_open guest_open rtc_ok rtc_ok).
  - reflexivity.
  - reflexivity.
  - simpl. discriminate.
  - reflexivity.
Defined.
